(** * Differential-drive odometry: a shallow embedding of [odometry.cpp]

    The estimator of [diff_drive_controller::Odometry] is embedded as pure
    functions over an explicit state record.  Conventions:

    - a C++ [double] is a value of [double] below: a real number, an
      infinity or NaN.  The arithmetic follows IEEE 754 on the special
      values (a zero divisor, [inf - inf], [0 * inf], comparisons with NaN);
      on finite values it is the arithmetic of the reals, so rounding,
      overflow and the sign of zero are not modelled;
    - a [ros::Time] is the real number of seconds it denotes, so that
      [(time - timestamp_).toSec()] is the difference of two reals, a finite
      [double];
    - a member function that mutates [*this] takes the state and returns the
      new one; one that also returns a [bool] returns the pair;
    - [integrate_fun_], the callable bound at construction, is a tag naming
      the member function it is bound to, dispatched by [integrate_fun]. *)

From Stdlib Require Import Reals Lra Lia List Arith Bool.
Import ListNotations.

Open Scope R_scope.

(** ** Doubles *)

Inductive double : Type :=
| Fin (r : R)
| PInf
| NInf
| NaN.

Declare Scope double_scope.
Delimit Scope double_scope with D.
Bind Scope double_scope with double.

Definition finite (d : double) : Prop :=
  match d with
  | Fin _ => True
  | _ => False
  end.

Definition dneg (a : double) : double :=
  match a with
  | Fin x => Fin (- x)
  | PInf => NInf
  | NInf => PInf
  | NaN => NaN
  end.

(** The infinity [i] with the sign of [x] applied to it; NaN when [x] is
    zero. *)
Definition inf_of_sign (x : R) (i : double) : double :=
  if Rlt_dec 0 x then i else if Rlt_dec x 0 then dneg i else NaN.

Definition dadd (a b : double) : double :=
  match a, b with
  | Fin x, Fin y => Fin (x + y)
  | Fin _, PInf => PInf
  | Fin _, NInf => NInf
  | PInf, Fin _ => PInf
  | NInf, Fin _ => NInf
  | PInf, PInf => PInf
  | NInf, NInf => NInf
  | PInf, NInf => NaN
  | NInf, PInf => NaN
  | NaN, _ => NaN
  | _, NaN => NaN
  end.

Definition dsub (a b : double) : double :=
  dadd a (dneg b).

Definition dmul (a b : double) : double :=
  match a, b with
  | Fin x, Fin y => Fin (x * y)
  | Fin x, PInf => inf_of_sign x PInf
  | Fin x, NInf => inf_of_sign x NInf
  | PInf, Fin y => inf_of_sign y PInf
  | NInf, Fin y => inf_of_sign y NInf
  | PInf, PInf => PInf
  | NInf, NInf => PInf
  | PInf, NInf => NInf
  | NInf, PInf => NInf
  | NaN, _ => NaN
  | _, NaN => NaN
  end.

(** Division; a zero divisor counts as [+0]. *)
Definition ddiv (a b : double) : double :=
  match a, b with
  | Fin x, Fin y =>
      if Req_EM_T y 0 then inf_of_sign x PInf else Fin (x / y)
  | Fin _, PInf => Fin 0
  | Fin _, NInf => Fin 0
  | PInf, Fin y => if Rlt_dec y 0 then NInf else PInf
  | NInf, Fin y => if Rlt_dec y 0 then PInf else NInf
  | PInf, PInf => NaN
  | PInf, NInf => NaN
  | NInf, PInf => NaN
  | NInf, NInf => NaN
  | NaN, _ => NaN
  | _, NaN => NaN
  end.

(** [fabs], [sin], [cos] *)
Definition dabs (a : double) : double :=
  match a with
  | Fin x => Fin (Rabs x)
  | PInf => PInf
  | NInf => PInf
  | NaN => NaN
  end.

Definition dsin (a : double) : double :=
  match a with
  | Fin x => Fin (sin x)
  | _ => NaN
  end.

Definition dcos (a : double) : double :=
  match a with
  | Fin x => Fin (cos x)
  | _ => NaN
  end.

(** The comparison [a < b]; false as soon as one side is NaN. *)
Definition Dlt (a b : double) : Prop :=
  match a, b with
  | Fin x, Fin y => x < y
  | Fin _, PInf => True
  | NInf, Fin _ => True
  | NInf, PInf => True
  | _, _ => False
  end.

Definition Dlt_dec (a b : double) : {Dlt a b} + {~ Dlt a b}.
Proof.
  destruct a, b; simpl; try (left; exact I); try (right; tauto).
  apply Rlt_dec.
Defined.

Notation "a + b" := (dadd a b) : double_scope.
Notation "a - b" := (dsub a b) : double_scope.
Notation "a * b" := (dmul a b) : double_scope.
Notation "a / b" := (ddiv a b) : double_scope.
Notation "- a" := (dneg a) : double_scope.

Open Scope double_scope.

(** ** Rolling mean accumulator *)

Module Rolling.

(** Modelled from the spec: the accumulator type [RollingMeanAcc] and its
    window-size argument [RollingWindow::window_size] are declared in
    [odometry.h] over the accumulators library and are not part of the
    source at hand.  The spec describes it as a circular buffer of capacity
    [N] holding the most recent samples of one channel, plus their running
    sum; [samples] lists the buffer oldest first. *)
Record RollingMeanAcc : Type := mkAcc {
  window_size : nat;
  samples : list double;
  running_sum : double
}.

(** Modelled from the spec: construction with a window size; the buffer
    starts empty. *)
Definition make (n : nat) : RollingMeanAcc :=
  mkAcc n [] (Fin 0).

(** Modelled from the spec: [insert] appends the sample, evicting the oldest
    if the buffer is at capacity.  A buffer of capacity zero holds nothing. *)
Definition push (a : RollingMeanAcc) (v : double) : RollingMeanAcc :=
  if (length (samples a) <? window_size a)%nat
  then mkAcc (window_size a) (samples a ++ [v]) (running_sum a + v)
  else match samples a with
       | [] => a
       | oldest :: rest =>
           mkAcc (window_size a) (rest ++ [v]) (running_sum a - oldest + v)
       end.

(** Modelled from the spec: the reported mean is the running sum over the
    number of buffered samples. *)
Definition rolling_mean (a : RollingMeanAcc) : double :=
  running_sum a / Fin (INR (length (samples a))).






End Rolling.

Import Rolling.

(** ** Estimator state *)

Definition Time : Type := R.

(** The two member functions [integrate_fun_] can be bound to. *)
Inductive IntegrationFunction : Type :=
| IntegrateExact
| IntegrateRungeKutta2.

Record Odometry : Type := mkOdometry {
  timestamp_ : Time;
  x_ : double;
  y_ : double;
  heading_ : double;
  linear_vel_ : double;
  angular_vel_ : double;
  wheel_separation_ : double;
  left_wheel_radius_ : double;
  right_wheel_radius_ : double;
  left_wheel_old_pos_ : double;
  right_wheel_old_pos_ : double;
  velocity_rolling_window_size_ : nat;
  linear_accum_ : RollingMeanAcc;
  angular_accum_ : RollingMeanAcc;
  integrate_fun_ : IntegrationFunction
}.

(** Assignments to groups of members. *)
Definition set_timestamp (o : Odometry) (t : Time) : Odometry :=
  mkOdometry t (x_ o) (y_ o) (heading_ o) (linear_vel_ o) (angular_vel_ o)
    (wheel_separation_ o) (left_wheel_radius_ o) (right_wheel_radius_ o)
    (left_wheel_old_pos_ o) (right_wheel_old_pos_ o)
    (velocity_rolling_window_size_ o) (linear_accum_ o) (angular_accum_ o)
    (integrate_fun_ o).

Definition set_pose (o : Odometry) (x y heading : double) : Odometry :=
  mkOdometry (timestamp_ o) x y heading (linear_vel_ o) (angular_vel_ o)
    (wheel_separation_ o) (left_wheel_radius_ o) (right_wheel_radius_ o)
    (left_wheel_old_pos_ o) (right_wheel_old_pos_ o)
    (velocity_rolling_window_size_ o) (linear_accum_ o) (angular_accum_ o)
    (integrate_fun_ o).

Definition set_vel (o : Odometry) (linear angular : double) : Odometry :=
  mkOdometry (timestamp_ o) (x_ o) (y_ o) (heading_ o) linear angular
    (wheel_separation_ o) (left_wheel_radius_ o) (right_wheel_radius_ o)
    (left_wheel_old_pos_ o) (right_wheel_old_pos_ o)
    (velocity_rolling_window_size_ o) (linear_accum_ o) (angular_accum_ o)
    (integrate_fun_ o).

Definition set_wheel_params (o : Odometry) (separation left right : double)
  : Odometry :=
  mkOdometry (timestamp_ o) (x_ o) (y_ o) (heading_ o) (linear_vel_ o)
    (angular_vel_ o) separation left right
    (left_wheel_old_pos_ o) (right_wheel_old_pos_ o)
    (velocity_rolling_window_size_ o) (linear_accum_ o) (angular_accum_ o)
    (integrate_fun_ o).

Definition set_old_pos (o : Odometry) (left right : double) : Odometry :=
  mkOdometry (timestamp_ o) (x_ o) (y_ o) (heading_ o) (linear_vel_ o)
    (angular_vel_ o) (wheel_separation_ o) (left_wheel_radius_ o)
    (right_wheel_radius_ o) left right
    (velocity_rolling_window_size_ o) (linear_accum_ o) (angular_accum_ o)
    (integrate_fun_ o).

Definition set_window_size (o : Odometry) (n : nat) : Odometry :=
  mkOdometry (timestamp_ o) (x_ o) (y_ o) (heading_ o) (linear_vel_ o)
    (angular_vel_ o) (wheel_separation_ o) (left_wheel_radius_ o)
    (right_wheel_radius_ o) (left_wheel_old_pos_ o) (right_wheel_old_pos_ o)
    n (linear_accum_ o) (angular_accum_ o) (integrate_fun_ o).

Definition set_accums (o : Odometry) (lin ang : RollingMeanAcc) : Odometry :=
  mkOdometry (timestamp_ o) (x_ o) (y_ o) (heading_ o) (linear_vel_ o)
    (angular_vel_ o) (wheel_separation_ o) (left_wheel_radius_ o)
    (right_wheel_radius_ o) (left_wheel_old_pos_ o) (right_wheel_old_pos_ o)
    (velocity_rolling_window_size_ o) lin ang (integrate_fun_ o).

(** ** Member functions *)

(** [Odometry::Odometry(size_t velocity_rolling_window_size)] *)
Definition Odometry_ctor (velocity_rolling_window_size : nat) : Odometry :=
  mkOdometry 0 (Fin 0) (Fin 0) (Fin 0) (Fin 0) (Fin 0) (Fin 0) (Fin 0)
    (Fin 0) (Fin 0) (Fin 0)
    velocity_rolling_window_size
    (make velocity_rolling_window_size)
    (make velocity_rolling_window_size)
    IntegrateExact.

(** [Odometry::resetAccumulators] *)
Definition resetAccumulators (o : Odometry) : Odometry :=
  set_accums o
    (make (velocity_rolling_window_size_ o))
    (make (velocity_rolling_window_size_ o)).

(** [Odometry::init] *)
Definition init (o : Odometry) (time : Time) : Odometry :=
  set_timestamp (resetAccumulators o) time.

(** [Odometry::integrateRungeKutta2] *)
Definition integrateRungeKutta2 (o : Odometry) (linear angular : double)
  : Odometry :=
  let direction := heading_ o + angular * Fin 0.5 in
  set_pose o
    (x_ o + linear * dcos direction)
    (y_ o + linear * dsin direction)
    (heading_ o + angular).

(** [Odometry::integrateExact] *)
Definition integrateExact (o : Odometry) (linear angular : double)
  : Odometry :=
  if Dlt_dec (dabs angular) (Fin 1e-4)
  then integrateRungeKutta2 o linear angular
  else
    let heading_old := heading_ o in
    let radius := linear / angular in
    let heading_new := heading_ o + angular in
    set_pose o
      (x_ o + radius * (dsin heading_new - dsin heading_old))
      (y_ o + - radius * (dcos heading_new - dcos heading_old))
      heading_new.

(** The call [integrate_fun_(linear, angular)]. *)
Definition integrate_fun (o : Odometry) (linear angular : double)
  : Odometry :=
  match integrate_fun_ o with
  | IntegrateExact => integrateExact o linear angular
  | IntegrateRungeKutta2 => integrateRungeKutta2 o linear angular
  end.

(** [Odometry::updateWithVelEst] *)
Definition updateWithVelEst (o : Odometry) (left_pos right_pos : double)
  (time : Time) : bool * Odometry :=
  let left_wheel_cur_pos := left_pos * left_wheel_radius_ o in
  let right_wheel_cur_pos := right_pos * right_wheel_radius_ o in
  let left_wheel_dist_traveled := left_wheel_cur_pos - left_wheel_old_pos_ o in
  let right_wheel_dist_traveled :=
    right_wheel_cur_pos - right_wheel_old_pos_ o in
  let o1 := set_old_pos o left_wheel_cur_pos right_wheel_cur_pos in
  let linear :=
    (right_wheel_dist_traveled + left_wheel_dist_traveled) * Fin 0.5 in
  let angular :=
    (right_wheel_dist_traveled - left_wheel_dist_traveled)
    / wheel_separation_ o1 in
  let o2 := integrate_fun o1 linear angular in
  let dt := (time - timestamp_ o2)%R in
  if Rlt_dec dt 0.0001
  then (false, o2)
  else
    let o3 := set_timestamp o2 time in
    let o4 :=
      set_accums o3
        (push (linear_accum_ o3) (linear / Fin dt))
        (push (angular_accum_ o3) (angular / Fin dt)) in
    (true,
     set_vel o4
       (rolling_mean (linear_accum_ o4))
       (rolling_mean (angular_accum_ o4))).

(** [Odometry::update] *)
Definition update (o : Odometry)
  (left_pos right_pos left_vel right_vel : double) (time : Time)
  : bool * Odometry :=
  let r := (left_wheel_radius_ o + right_wheel_radius_ o) * Fin 0.5 in
  let o1 :=
    set_vel o
      ((left_vel + right_vel) * r / Fin 2)
      (r * (right_vel - left_vel) / wheel_separation_ o) in
  let left_wheel_cur_pos := left_pos * left_wheel_radius_ o1 in
  let right_wheel_cur_pos := right_pos * right_wheel_radius_ o1 in
  let left_wheel_dist_traveled :=
    left_wheel_cur_pos - left_wheel_old_pos_ o1 in
  let right_wheel_dist_traveled :=
    right_wheel_cur_pos - right_wheel_old_pos_ o1 in
  let o2 := set_old_pos o1 left_wheel_cur_pos right_wheel_cur_pos in
  let linear_diff :=
    (right_wheel_dist_traveled + left_wheel_dist_traveled) * Fin 0.5 in
  let angular_diff :=
    (right_wheel_dist_traveled - left_wheel_dist_traveled)
    / wheel_separation_ o2 in
  (true, integrate_fun o2 linear_diff angular_diff).

(** [Odometry::updateOpenLoop] *)
Definition updateOpenLoop (o : Odometry) (linear angular : double)
  (time : Time) : Odometry :=
  let o1 := set_vel o linear angular in
  let dt := (time - timestamp_ o1)%R in
  let o2 := set_timestamp o1 time in
  integrate_fun o2 (linear * Fin dt) (angular * Fin dt).

(** [Odometry::setWheelParams] *)
Definition setWheelParams (o : Odometry)
  (wheel_separation left_wheel_radius right_wheel_radius : double)
  : Odometry :=
  set_wheel_params o wheel_separation left_wheel_radius right_wheel_radius.

(** [Odometry::setVelocityRollingWindowSize] *)
Definition setVelocityRollingWindowSize (o : Odometry)
  (velocity_rolling_window_size : nat) : Odometry :=
  resetAccumulators (set_window_size o velocity_rolling_window_size).

(** ** Derived notions used in the statements *)

(** The body-frame increments both encoder-based updates compute from the
    wheel readings and the remembered wheel distances. *)
Definition linear_increment (o : Odometry) (left_pos right_pos : double)
  : double :=
  ((right_pos * right_wheel_radius_ o - right_wheel_old_pos_ o)
   + (left_pos * left_wheel_radius_ o - left_wheel_old_pos_ o)) * Fin 0.5.

Definition angular_increment (o : Odometry) (left_pos right_pos : double)
  : double :=
  ((right_pos * right_wheel_radius_ o - right_wheel_old_pos_ o)
   - (left_pos * left_wheel_radius_ o - left_wheel_old_pos_ o))
  / wheel_separation_ o.

(** Pose, velocity estimate and encoder memory as tuples. *)
Definition pose (o : Odometry) : double * double * double :=
  (x_ o, y_ o, heading_ o).

Definition velocity (o : Odometry) : double * double :=
  (linear_vel_ o, angular_vel_ o).

Definition encoder_memory (o : Odometry) : double * double :=
  (left_wheel_old_pos_ o, right_wheel_old_pos_ o).

Definition wheel_params (o : Odometry) : double * double * double :=
  (wheel_separation_ o, left_wheel_radius_ o, right_wheel_radius_ o).

(** The pose a step of each integrator yields, written out. *)
Definition midpoint_pose (o : Odometry) (linear angular : double)
  : double * double * double :=
  (x_ o + linear * dcos (heading_ o + angular * Fin 0.5),
   y_ o + linear * dsin (heading_ o + angular * Fin 0.5),
   heading_ o + angular).

Definition arc_pose (o : Odometry) (linear angular : double)
  : double * double * double :=
  (x_ o + linear / angular
          * (dsin (heading_ o + angular) - dsin (heading_ o)),
   y_ o + - (linear / angular)
          * (dcos (heading_ o + angular) - dcos (heading_ o)),
   heading_ o + angular).

(** A sequence of pose-integration steps, each an increment
    [(linear, angular)], applied in order. *)
Definition integrate_all (o : Odometry) (increments : list (double * double))
  : Odometry :=
  fold_left (fun s inc => integrate_fun s (fst inc) (snd inc)) increments o.

(** The calls a user of the class can make, and their effect on the state
    (the [bool] results are dropped). *)
Inductive Call : Type :=
| CallInit (time : Time)
| CallUpdateWithVelEst (left_pos right_pos : double) (time : Time)
| CallUpdate (left_pos right_pos left_vel right_vel : double) (time : Time)
| CallUpdateOpenLoop (linear angular : double) (time : Time)
| CallSetWheelParams (wheel_separation left_wheel_radius
                        right_wheel_radius : double)
| CallSetVelocityRollingWindowSize (velocity_rolling_window_size : nat).

Definition call (o : Odometry) (c : Call) : Odometry :=
  match c with
  | CallInit time => init o time
  | CallUpdateWithVelEst left_pos right_pos time =>
      snd (updateWithVelEst o left_pos right_pos time)
  | CallUpdate left_pos right_pos left_vel right_vel time =>
      snd (update o left_pos right_pos left_vel right_vel time)
  | CallUpdateOpenLoop linear angular time =>
      updateOpenLoop o linear angular time
  | CallSetWheelParams wheel_separation left_wheel_radius
      right_wheel_radius =>
      setWheelParams o wheel_separation left_wheel_radius right_wheel_radius
  | CallSetVelocityRollingWindowSize velocity_rolling_window_size =>
      setVelocityRollingWindowSize o velocity_rolling_window_size
  end.

Definition calls (o : Odometry) (cs : list Call) : Odometry :=
  fold_left call cs o.

(** Whether a call is one of the three pose updates. *)
Definition is_update (c : Call) : bool :=
  match c with
  | CallUpdateWithVelEst _ _ _ | CallUpdate _ _ _ _ _
  | CallUpdateOpenLoop _ _ _ => true
  | _ => false
  end.

(** The two encoder-based updates. *)
Definition is_encoder_update (c : Call) : bool :=
  match c with
  | CallUpdateWithVelEst _ _ _ | CallUpdate _ _ _ _ _ => true
  | _ => false
  end.

Definition is_setWheelParams (c : Call) : bool :=
  match c with
  | CallSetWheelParams _ _ _ => true
  | _ => false
  end.

(** The estimator seen in a mirror along the x axis: [y] and heading
    negated, left and right wheel exchanged. *)
Definition mirror (o : Odometry) : Odometry :=
  set_old_pos
    (set_wheel_params
       (set_pose o (x_ o) (- y_ o) (- heading_ o))
       (wheel_separation_ o) (right_wheel_radius_ o) (left_wheel_radius_ o))
    (right_wheel_old_pos_ o) (left_wheel_old_pos_ o).






(** ** Proof support *)

(** The two spellings of the threshold in the source denote one number. *)
Example threshold_literals : (1e-4 = 0.0001 /\ 0.0001 = 1 / 10000)%R.
Proof. split; lra. Qed.

Ltac split_all :=
  repeat match goal with
         | |- _ /\ _ => split
         end.

(** *** Arithmetic of doubles *)

Ltac case_sign :=
  repeat (match goal with
          | |- context [Rlt_dec ?a ?b] => destruct (Rlt_dec a b)
          | |- context [Req_EM_T ?a ?b] => destruct (Req_EM_T a b)
          end; cbn [dneg]).

Ltac dsolve :=
  intros;
  repeat match goal with
         | d : double |- _ => destruct d
         end;
  cbn [dadd dsub dmul ddiv dneg dabs dsin dcos finite Dlt] in *;
  unfold inf_of_sign; case_sign;
  try reflexivity; try tauto; try lra; try discriminate;
  try (f_equal; lra); try (f_equal; field; lra).

Lemma triple_ext {A B C : Type} (a a' : A) (b b' : B) (c c' : C) :
  a = a' -> b = b' -> c = c' -> (a, b, c) = (a', b', c').
Proof. now intros -> -> ->. Qed.

Lemma dadd_0_r (a : double) : a + Fin 0 = a.
Proof. dsolve. Qed.


Lemma dadd_comm (a b : double) : a + b = b + a.
Proof. dsolve. Qed.

Lemma dmul_comm (a b : double) : a * b = b * a.
Proof. dsolve. Qed.

Lemma dneg_involutive (a : double) : - - a = a.
Proof. dsolve. Qed.

Lemma dneg_dadd (a b : double) : - (a + b) = - a + - b.
Proof. dsolve. Qed.

Lemma dneg_dsub (a b : double) : - (a - b) = - a - - b.
Proof. dsolve. Qed.

Lemma dsub_swap (a b : double) : a - b = - (b - a).
Proof. dsolve. Qed.

Lemma dmul_dneg_l (a b : double) : - a * b = - (a * b).
Proof. dsolve. Qed.

Lemma dmul_dneg_r (a b : double) : a * - b = - (a * b).
Proof. dsolve. Qed.

Lemma ddiv_dneg_l (a b : double) : - a / b = - (a / b).
Proof. dsolve. Qed.

Lemma ddiv_dneg_r (a b : double) : b <> Fin 0 -> a / - b = - (a / b).
Proof.
  intros Hnz. destruct a, b; cbn [ddiv dneg]; unfold inf_of_sign; case_sign;
    try reflexivity; try lra; try (f_equal; field; lra);
    exfalso; apply Hnz; f_equal; lra.
Qed.

Lemma dabs_dneg (a : double) : dabs (- a) = dabs a.
Proof. dsolve; f_equal; apply Rabs_Ropp. Qed.

Lemma dsin_dneg (a : double) : dsin (- a) = - dsin a.
Proof. dsolve; f_equal; apply sin_neg. Qed.

Lemma dcos_dneg (a : double) : dcos (- a) = dcos a.
Proof. dsolve; f_equal; apply cos_neg. Qed.

Lemma dhalf (a : double) : a * Fin 0.5 = a / Fin 2.
Proof. dsolve. Qed.


Lemma dmul_NaN_r (a : double) : a * NaN = NaN.
Proof. dsolve. Qed.

Lemma dadd_NaN_r (a : double) : a + NaN = NaN.
Proof. dsolve. Qed.

(** Division by zero never gives a finite number. *)
Lemma ddiv_zero_not_finite (a : double) : ~ finite (a / Fin 0).
Proof. dsolve. Qed.

Lemma dadd_not_finite_r (a b : double) : ~ finite b -> ~ finite (a + b).
Proof. dsolve. Qed.

Lemma dhalf_not_finite (a : double) : ~ finite a -> ~ finite (a * Fin 0.5).
Proof. dsolve. Qed.

Lemma dsin_not_finite (a : double) : ~ finite a -> dsin a = NaN.
Proof. dsolve. Qed.

Lemma dcos_not_finite (a : double) : ~ finite a -> dcos a = NaN.
Proof. dsolve. Qed.

(** Only a finite number is below a finite bound in absolute value. *)
Lemma small_is_finite (a : double) (bound : R) :
  Dlt (dabs a) (Fin bound) -> finite a.
Proof. dsolve. Qed.

Lemma ddiv_Fin (x y : R) :
  y <> 0%R -> Fin x / Fin y = Fin (x / y).
Proof. intros Hy. cbn [ddiv]. destruct (Req_EM_T y 0); [contradiction |].
  reflexivity.
Qed.

Lemma finite_Fin (a : double) : finite a -> exists r, a = Fin r.
Proof. destruct a; simpl; try tauto. eauto. Qed.

(** *** Projections through the setters and the integrators *)

Ltac odo_cbn :=
  cbn [fst snd timestamp_ x_ y_ heading_ linear_vel_ angular_vel_
       wheel_separation_
       left_wheel_radius_ right_wheel_radius_ left_wheel_old_pos_
       right_wheel_old_pos_ velocity_rolling_window_size_ linear_accum_
       angular_accum_ integrate_fun_
       set_timestamp set_pose set_vel set_wheel_params set_old_pos
       set_window_size set_accums].

Ltac integrator_frame :=
  unfold integrate_fun, integrateExact, integrateRungeKutta2;
  match goal with
  | |- context [match integrate_fun_ ?o with _ => _ end] =>
      destruct (integrate_fun_ o)
  end;
  [destruct (Dlt_dec _ _) |]; reflexivity.

Section IntegrationFrame.

Variable o : Odometry.
Variables linear angular : double.

Lemma integrateRungeKutta2_pose :
  pose (integrateRungeKutta2 o linear angular)
  = midpoint_pose o linear angular.
Proof. reflexivity. Qed.

Lemma integrateExact_small :
  Dlt (dabs angular) (Fin 1e-4) ->
  integrateExact o linear angular = integrateRungeKutta2 o linear angular.
Proof.
  intros Hsmall. unfold integrateExact.
  destruct (Dlt_dec _ _); [reflexivity | contradiction].
Qed.

Lemma integrateExact_arc :
  ~ Dlt (dabs angular) (Fin 1e-4) ->
  pose (integrateExact o linear angular) = arc_pose o linear angular.
Proof.
  intros Hlarge. unfold integrateExact.
  destruct (Dlt_dec _ _); [contradiction | reflexivity].
Qed.

Lemma integrateRungeKutta2_heading :
  heading_ (integrateRungeKutta2 o linear angular) = heading_ o + angular.
Proof. reflexivity. Qed.

Lemma integrateExact_heading :
  heading_ (integrateExact o linear angular) = heading_ o + angular.
Proof. unfold integrateExact. destruct (Dlt_dec _ _); reflexivity. Qed.

Lemma integrate_fun_heading :
  heading_ (integrate_fun o linear angular) = heading_ o + angular.
Proof.
  unfold integrate_fun. destruct (integrate_fun_ o).
  - apply integrateExact_heading.
  - apply integrateRungeKutta2_heading.
Qed.

Lemma integrate_fun_timestamp :
  timestamp_ (integrate_fun o linear angular) = timestamp_ o.
Proof. integrator_frame. Qed.

Lemma integrate_fun_linear_vel :
  linear_vel_ (integrate_fun o linear angular) = linear_vel_ o.
Proof. integrator_frame. Qed.

Lemma integrate_fun_angular_vel :
  angular_vel_ (integrate_fun o linear angular) = angular_vel_ o.
Proof. integrator_frame. Qed.

Lemma integrate_fun_wheel_separation :
  wheel_separation_ (integrate_fun o linear angular) = wheel_separation_ o.
Proof. integrator_frame. Qed.

Lemma integrate_fun_left_wheel_radius :
  left_wheel_radius_ (integrate_fun o linear angular)
  = left_wheel_radius_ o.
Proof. integrator_frame. Qed.

Lemma integrate_fun_right_wheel_radius :
  right_wheel_radius_ (integrate_fun o linear angular)
  = right_wheel_radius_ o.
Proof. integrator_frame. Qed.

Lemma integrate_fun_left_wheel_old_pos :
  left_wheel_old_pos_ (integrate_fun o linear angular)
  = left_wheel_old_pos_ o.
Proof. integrator_frame. Qed.

Lemma integrate_fun_right_wheel_old_pos :
  right_wheel_old_pos_ (integrate_fun o linear angular)
  = right_wheel_old_pos_ o.
Proof. integrator_frame. Qed.

Lemma integrate_fun_window_size :
  velocity_rolling_window_size_ (integrate_fun o linear angular)
  = velocity_rolling_window_size_ o.
Proof. integrator_frame. Qed.

Lemma integrate_fun_linear_accum :
  linear_accum_ (integrate_fun o linear angular) = linear_accum_ o.
Proof. integrator_frame. Qed.

Lemma integrate_fun_angular_accum :
  angular_accum_ (integrate_fun o linear angular) = angular_accum_ o.
Proof. integrator_frame. Qed.

Lemma integrate_fun_integrate_fun_ :
  integrate_fun_ (integrate_fun o linear angular) = integrate_fun_ o.
Proof.
  unfold integrate_fun, integrateExact, integrateRungeKutta2.
  destruct (integrate_fun_ o) eqn:Htag;
    [destruct (Dlt_dec _ _) |]; odo_cbn; exact Htag.
Qed.

End IntegrationFrame.

Create Rewrite HintDb odo_frame.

#[local] Hint Rewrite integrate_fun_timestamp integrate_fun_linear_vel
  integrate_fun_angular_vel integrate_fun_wheel_separation
  integrate_fun_left_wheel_radius integrate_fun_right_wheel_radius
  integrate_fun_left_wheel_old_pos integrate_fun_right_wheel_old_pos
  integrate_fun_window_size
  integrate_fun_linear_accum integrate_fun_angular_accum
  integrate_fun_integrate_fun_ : odo_frame.

(** Open an update down to the fields of its argument, leaving the pose
    integration folded. *)
Ltac odo_simpl :=
  unfold pose, velocity, encoder_memory, wheel_params;
  odo_cbn; autorewrite with odo_frame; odo_cbn.

(** The integrators read nothing but the pose and the bound integrator. *)
Lemma integrate_fun_pose_ext (o1 o2 : Odometry) (linear angular : double) :
  pose o1 = pose o2 ->
  integrate_fun_ o1 = integrate_fun_ o2 ->
  pose (integrate_fun o1 linear angular)
  = pose (integrate_fun o2 linear angular).
Proof.
  destruct o1, o2. unfold pose. odo_cbn.
  intros Hpose Hfun. injection Hpose as -> -> ->. subst.
  unfold integrate_fun, integrateExact, integrateRungeKutta2. odo_cbn.
  match goal with
  | f : IntegrationFunction |- _ => destruct f
  end; [destruct (Dlt_dec _ _) |]; reflexivity.
Qed.

(** The pose after a step, by integrator and by side of the threshold. *)
Lemma integrate_fun_pose_cases (o : Odometry) (linear angular : double) :
  (integrate_fun_ o = IntegrateExact ->
   Dlt (dabs angular) (Fin 1e-4) ->
   pose (integrate_fun o linear angular) = midpoint_pose o linear angular)
  /\ (integrate_fun_ o = IntegrateExact ->
      ~ Dlt (dabs angular) (Fin 1e-4) ->
      pose (integrate_fun o linear angular) = arc_pose o linear angular)
  /\ (integrate_fun_ o = IntegrateRungeKutta2 ->
      pose (integrate_fun o linear angular)
      = midpoint_pose o linear angular).
Proof.
  unfold integrate_fun. split_all; intros Htag; rewrite Htag.
  - intros Hsmall. now rewrite integrateExact_small.
  - apply integrateExact_arc.
  - reflexivity.
Qed.

(** ** C2: the arc integrator *)

(** C2.  The integrator bound at construction is [integrateExact].  For every
    state and increment: if [|angular| < 1e-4] it coincides with the midpoint
    step (direction [heading + angular/2], [x += linear * cos direction],
    [y += linear * sin direction], [heading += angular]); if
    [|angular| >= 1e-4] (or, more generally, whenever the test
    [|angular| < 1e-4] fails) it performs the closed-form arc update with
    [radius = linear / angular] and [heading_new = heading + angular]. *)
Theorem integrateExact_cases (o : Odometry) (linear angular : double) :
  (forall n, integrate_fun_ (Odometry_ctor n) = IntegrateExact)
  /\ (Dlt (dabs angular) (Fin 1e-4) ->
      let direction := heading_ o + angular / Fin 2 in
      integrateExact o linear angular = integrateRungeKutta2 o linear angular
      /\ pose (integrateRungeKutta2 o linear angular)
         = (x_ o + linear * dcos direction,
            y_ o + linear * dsin direction,
            heading_ o + angular))
  /\ (~ Dlt (dabs angular) (Fin 1e-4) ->
      let radius := linear / angular in
      let heading_old := heading_ o in
      let heading_new := heading_old + angular in
      pose (integrateExact o linear angular)
      = (x_ o + radius * (dsin heading_new - dsin heading_old),
         y_ o + - radius * (dcos heading_new - dcos heading_old),
         heading_new)).
Proof.
  split_all.
  - reflexivity.
  - intros Hsmall direction. split.
    + now apply integrateExact_small.
    + unfold direction. rewrite <- dhalf. reflexivity.
  - intros Hlarge radius heading_old heading_new.
    now rewrite integrateExact_arc.
Qed.

Lemma integrateExact_cases_witness :
  (Dlt (dabs (Fin 0)) (Fin 1e-4) /\ ~ Dlt (dabs (Fin 1)) (Fin 1e-4))
  /\ integrateExact (Odometry_ctor 10) (Fin 1) (Fin 0)
     = integrateRungeKutta2 (Odometry_ctor 10) (Fin 1) (Fin 0)
  /\ pose (integrateExact (Odometry_ctor 10) (Fin 2) (Fin 1))
     = (Fin 0 + Fin 2 / Fin 1 * (dsin (Fin 0 + Fin 1) - dsin (Fin 0)),
        Fin 0 + - (Fin 2 / Fin 1) * (dcos (Fin 0 + Fin 1) - dcos (Fin 0)),
        Fin 0 + Fin 1).
Proof.
  assert (H0 : Dlt (dabs (Fin 0)) (Fin 1e-4))
    by (cbn [dabs Dlt]; rewrite Rabs_R0; lra).
  assert (H1 : ~ Dlt (dabs (Fin 1)) (Fin 1e-4))
    by (cbn [dabs Dlt]; rewrite Rabs_R1; lra).
  split; [exact (conj H0 H1) | split].
  - exact (proj1 (proj1 (proj2 (integrateExact_cases (Odometry_ctor 10)
                                  (Fin 1) (Fin 0))) H0)).
  - exact (proj2 (proj2 (integrateExact_cases (Odometry_ctor 10)
                           (Fin 2) (Fin 1))) H1).
Defined.

(** ** C7: the heading is never wrapped *)

Lemma integrate_all_heading (increments : list (double * double)) :
  forall o,
    heading_ (integrate_all o increments)
    = fold_left dadd (map snd increments) (heading_ o).
Proof.
  induction increments as [| [linear angular] rest IH]; intros o.
  - reflexivity.
  - change (integrate_all o ((linear, angular) :: rest))
      with (integrate_all (integrate_fun o linear angular) rest).
    rewrite IH, integrate_fun_heading. reflexivity.
Qed.

Lemma fold_left_dadd_Fin (angles : list R) :
  forall h, fold_left dadd (map Fin angles) (Fin h)
            = Fin (fold_left Rplus angles h).
Proof.
  induction angles as [| a rest IH]; intros h; [reflexivity |].
  cbn [map fold_left dadd]. apply IH.
Qed.

(** C7.  Every single integration step, under either integrator and on either
    side of the threshold, adds exactly the angular increment to the heading
    and does nothing else to it; hence after any sequence of increments the
    heading is the initial heading with the angular increments added to it
    one after the other, in the order of the steps.  For a finite initial
    heading [h] and finite increments this is the number
    [(..(h + a1) + ..) + an], however large: it is never reduced modulo
    [2 PI]. *)
Theorem heading_never_wrapped (o : Odometry)
  (increments : list (double * double)) :
  (forall linear angular,
      heading_ (integrateRungeKutta2 o linear angular) = heading_ o + angular
      /\ heading_ (integrateExact o linear angular) = heading_ o + angular
      /\ heading_ (integrate_fun o linear angular) = heading_ o + angular)
  /\ heading_ (integrate_all o increments)
     = fold_left dadd (map snd increments) (heading_ o)
  /\ (forall (h : R) (angles : list R),
         heading_ o = Fin h ->
         map snd increments = map Fin angles ->
         heading_ (integrate_all o increments)
         = Fin (fold_left Rplus angles h)).
Proof.
  split; [intros linear angular; split_all | split].
  - apply integrateRungeKutta2_heading.
  - apply integrateExact_heading.
  - apply integrate_fun_heading.
  - apply integrate_all_heading.
  - intros h angles Hh Hangles.
    rewrite integrate_all_heading, Hh, Hangles.
    apply fold_left_dadd_Fin.
Qed.

Lemma heading_never_wrapped_witness :
  let turns := [(Fin 1, Fin 3); (Fin 1, Fin 2); (Fin 1, Fin 2)] in
  (heading_ (Odometry_ctor 10) = Fin 0
   /\ map snd turns = map Fin [3; 2; 2]%R)
  /\ heading_ (integrate_all (Odometry_ctor 10) turns)
     = Fin (fold_left Rplus [3; 2; 2]%R 0%R).
Proof.
  intros turns.
  assert (Hh : heading_ (Odometry_ctor 10) = Fin 0) by reflexivity.
  assert (Hangles : map snd turns = map Fin [3; 2; 2]%R) by reflexivity.
  split; [exact (conj Hh Hangles) |].
  exact (proj2 (proj2 (heading_never_wrapped (Odometry_ctor 10) turns))
           0%R [3; 2; 2]%R Hh Hangles).
Defined.

(** ** C9: [setWheelParams] *)

(** C9.  [setWheelParams] stores its three arguments in the wheel parameters
    and leaves pose, velocity estimate, encoder memory, timestamp, window
    size, both accumulators and the bound integrator as they were. *)
Theorem setWheelParams_frame (o : Odometry)
  (wheel_separation left_wheel_radius right_wheel_radius : double) :
  let o' :=
    setWheelParams o wheel_separation left_wheel_radius right_wheel_radius in
  wheel_params o' = (wheel_separation, left_wheel_radius, right_wheel_radius)
  /\ pose o' = pose o
  /\ velocity o' = velocity o
  /\ encoder_memory o' = encoder_memory o
  /\ timestamp_ o' = timestamp_ o
  /\ velocity_rolling_window_size_ o' = velocity_rolling_window_size_ o
  /\ linear_accum_ o' = linear_accum_ o
  /\ angular_accum_ o' = angular_accum_ o
  /\ integrate_fun_ o' = integrate_fun_ o.
Proof. simpl. split_all; reflexivity. Qed.

(** ** Steps without rotation, and steps that are not numbers *)

(** A step with no rotation moves along the current heading. *)
Lemma integrate_fun_straight (o : Odometry) (linear : double) :
  pose (integrate_fun o linear (Fin 0))
  = (x_ o + linear * dcos (heading_ o),
     y_ o + linear * dsin (heading_ o),
     heading_ o).
Proof.
  assert (Hz : Dlt (dabs (Fin 0)) (Fin 1e-4))
    by (cbn [dabs Dlt]; rewrite Rabs_R0; lra).
  assert (Hdir : heading_ o + Fin 0 * Fin 0.5 = heading_ o).
  { cbn [dmul]. replace (0 * 0.5)%R with 0%R by lra. apply dadd_0_r. }
  unfold integrate_fun.
  destruct (integrate_fun_ o);
    [rewrite (integrateExact_small _ _ _ Hz) |];
    unfold pose, integrateRungeKutta2, set_pose; cbn [x_ y_ heading_];
    rewrite Hdir, dadd_0_r; reflexivity.
Qed.

(** A zero increment leaves the pose where it is, provided the heading is a
    number. *)
Lemma integrate_fun_zero (o : Odometry) :
  finite (heading_ o) ->
  pose (integrate_fun o (Fin 0) (Fin 0)) = pose o.
Proof.
  intros Hh. apply finite_Fin in Hh as [h Hh].
  rewrite integrate_fun_straight, Hh. cbn [dcos dsin dmul].
  rewrite !Rmult_0_l, !dadd_0_r. unfold pose. now rewrite Hh.
Qed.

(** A step with no linear part turns on the spot. *)
Lemma integrate_fun_turn (o : Odometry) (h angle : R) :
  heading_ o = Fin h ->
  pose (integrate_fun o (Fin 0) (Fin angle))
  = (x_ o, y_ o, Fin (h + angle)).
Proof.
  intros Hh.
  unfold integrate_fun, integrateExact, integrateRungeKutta2, pose.
  destruct (integrate_fun_ o); [destruct (Dlt_dec _ _) as [Hs | Hl] |];
    odo_cbn; rewrite Hh; cbn [dadd dsub dmul dneg dsin dcos].
  - rewrite !Rmult_0_l, !dadd_0_r. reflexivity.
  - assert (Hnz : angle <> 0%R).
    { intros ->. apply Hl. cbn [dabs Dlt]. rewrite Rabs_R0. lra. }
    rewrite (ddiv_Fin 0 angle Hnz). cbn [dadd dsub dmul dneg].
    unfold Rdiv. rewrite !Rmult_0_l, Ropp_0, !Rmult_0_l, !dadd_0_r.
    reflexivity.
  - rewrite !Rmult_0_l, !dadd_0_r. reflexivity.
Qed.

(** An increment whose angular part is not a number turns every pose
    coordinate into something that is not a number. *)
Lemma integrate_fun_not_finite (o : Odometry) (linear angular : double) :
  ~ finite angular ->
  let o' := integrate_fun o linear angular in
  x_ o' = NaN /\ y_ o' = NaN /\ ~ finite (heading_ o').
Proof.
  intros Hnf o'. subst o'.
  assert (Hnew : ~ finite (heading_ o + angular))
    by now apply dadd_not_finite_r.
  assert (Hdir : ~ finite (heading_ o + angular * Fin 0.5))
    by now apply dadd_not_finite_r, dhalf_not_finite.
  assert (Hlarge : ~ Dlt (dabs angular) (Fin 1e-4)).
  { intros Hsmall. now apply Hnf, (small_is_finite _ 1e-4). }
  unfold integrate_fun, integrateExact, integrateRungeKutta2.
  destruct (integrate_fun_ o); [destruct (Dlt_dec _ _); [contradiction |] |];
    odo_cbn.
  - rewrite (dsin_not_finite _ Hnew), (dcos_not_finite _ Hnew).
    change (NaN - dsin (heading_ o)) with NaN.
    change (NaN - dcos (heading_ o)) with NaN.
    rewrite !dmul_NaN_r, !dadd_NaN_r. split_all; try reflexivity. exact Hnew.
  - rewrite (dsin_not_finite _ Hdir), (dcos_not_finite _ Hdir).
    rewrite !dmul_NaN_r, !dadd_NaN_r. split_all; try reflexivity. exact Hnew.
Qed.

(** ** What the updates do to pose and encoder memory *)

Section EncoderUpdates.

Variable o : Odometry.
Variables left_pos right_pos : double.

Lemma updateWithVelEst_pose (time : Time) :
  pose (snd (updateWithVelEst o left_pos right_pos time))
  = pose (integrate_fun o (linear_increment o left_pos right_pos)
            (angular_increment o left_pos right_pos)).
Proof.
  unfold updateWithVelEst. cbv zeta.
  destruct (Rlt_dec _ _); odo_cbn;
    apply integrate_fun_pose_ext; reflexivity.
Qed.

Lemma updateWithVelEst_heading (time : Time) :
  heading_ (snd (updateWithVelEst o left_pos right_pos time))
  = heading_ o + angular_increment o left_pos right_pos.
Proof.
  unfold updateWithVelEst. cbv zeta.
  destruct (Rlt_dec _ _); odo_cbn; rewrite integrate_fun_heading;
    reflexivity.
Qed.

Lemma updateWithVelEst_encoder_memory (time : Time) :
  encoder_memory (snd (updateWithVelEst o left_pos right_pos time))
  = (left_pos * left_wheel_radius_ o, right_pos * right_wheel_radius_ o).
Proof.
  unfold updateWithVelEst. cbv zeta.
  destruct (Rlt_dec _ _); odo_simpl; reflexivity.
Qed.

Lemma updateWithVelEst_wheel_params (time : Time) :
  wheel_params (snd (updateWithVelEst o left_pos right_pos time))
  = wheel_params o.
Proof.
  unfold updateWithVelEst. cbv zeta.
  destruct (Rlt_dec _ _); odo_simpl; reflexivity.
Qed.

Lemma updateWithVelEst_integrate_fun_ (time : Time) :
  integrate_fun_ (snd (updateWithVelEst o left_pos right_pos time))
  = integrate_fun_ o.
Proof.
  unfold updateWithVelEst. cbv zeta.
  destruct (Rlt_dec _ _); odo_simpl; reflexivity.
Qed.

Lemma updateWithVelEst_timestamp (time : Time) :
  timestamp_ (snd (updateWithVelEst o left_pos right_pos time))
  = if Rlt_dec (time - timestamp_ o)%R 0.0001 then timestamp_ o else time.
Proof.
  unfold updateWithVelEst. cbv zeta.
  rewrite integrate_fun_timestamp. odo_cbn.
  destruct (Rlt_dec _ _); odo_simpl; reflexivity.
Qed.

Lemma update_pose (left_vel right_vel : double) (time : Time) :
  pose (snd (update o left_pos right_pos left_vel right_vel time))
  = pose (integrate_fun o (linear_increment o left_pos right_pos)
            (angular_increment o left_pos right_pos)).
Proof.
  unfold update. cbv zeta. cbn [snd].
  apply integrate_fun_pose_ext; reflexivity.
Qed.

Lemma update_heading (left_vel right_vel : double) (time : Time) :
  heading_ (snd (update o left_pos right_pos left_vel right_vel time))
  = heading_ o + angular_increment o left_pos right_pos.
Proof.
  unfold update. cbv zeta. cbn [snd]. rewrite integrate_fun_heading.
  reflexivity.
Qed.

Lemma update_encoder_memory (left_vel right_vel : double) (time : Time) :
  encoder_memory (snd (update o left_pos right_pos left_vel right_vel time))
  = (left_pos * left_wheel_radius_ o, right_pos * right_wheel_radius_ o).
Proof. unfold update. cbv zeta. odo_simpl. reflexivity. Qed.

Lemma update_wheel_params (left_vel right_vel : double) (time : Time) :
  wheel_params (snd (update o left_pos right_pos left_vel right_vel time))
  = wheel_params o.
Proof. unfold update. cbv zeta. odo_simpl. reflexivity. Qed.

Lemma update_integrate_fun_ (left_vel right_vel : double) (time : Time) :
  integrate_fun_ (snd (update o left_pos right_pos left_vel right_vel time))
  = integrate_fun_ o.
Proof. unfold update. cbv zeta. odo_simpl. reflexivity. Qed.

Lemma update_timestamp (left_vel right_vel : double) (time : Time) :
  timestamp_ (snd (update o left_pos right_pos left_vel right_vel time))
  = timestamp_ o.
Proof. unfold update. cbv zeta. odo_simpl. reflexivity. Qed.

Lemma update_accums (left_vel right_vel : double) (time : Time) :
  let o' := snd (update o left_pos right_pos left_vel right_vel time) in
  linear_accum_ o' = linear_accum_ o /\ angular_accum_ o' = angular_accum_ o.
Proof. unfold update. cbv zeta. odo_simpl. split; reflexivity. Qed.

Lemma update_velocity (left_vel right_vel : double) (time : Time) :
  velocity (snd (update o left_pos right_pos left_vel right_vel time))
  = ((left_vel + right_vel)
     * ((left_wheel_radius_ o + right_wheel_radius_ o) * Fin 0.5) / Fin 2,
     (left_wheel_radius_ o + right_wheel_radius_ o) * Fin 0.5
     * (right_vel - left_vel) / wheel_separation_ o).
Proof. unfold update. cbv zeta. odo_simpl. reflexivity. Qed.

(** The pose after an encoder update, by integrator and side of the
    threshold, written out on the state before the call. *)
Lemma encoder_update_pose_cases (o' : Odometry) :
  pose o' = pose (integrate_fun o (linear_increment o left_pos right_pos)
                    (angular_increment o left_pos right_pos)) ->
  let linear := linear_increment o left_pos right_pos in
  let angular := angular_increment o left_pos right_pos in
  (integrate_fun_ o = IntegrateExact ->
   Dlt (dabs angular) (Fin 1e-4) ->
   pose o' = midpoint_pose o linear angular)
  /\ (integrate_fun_ o = IntegrateExact ->
      ~ Dlt (dabs angular) (Fin 1e-4) ->
      pose o' = arc_pose o linear angular)
  /\ (integrate_fun_ o = IntegrateRungeKutta2 ->
      pose o' = midpoint_pose o linear angular).
Proof.
  intros Hpose linear angular. rewrite Hpose.
  apply integrate_fun_pose_cases.
Qed.

End EncoderUpdates.

(** ** C3: update from encoder positions and velocities *)

(** C3.  [update] always returns [true]; the velocity estimate becomes
    [r * (left_vel + right_vel) / 2] and
    [r * (right_vel - left_vel) / separation] with
    [r = (left_radius + right_radius) / 2], the accumulators being left
    alone.  The pose is integrated with the increments of the wheel
    distances: the heading grows by the angular increment, and [x], [y] are
    those of the midpoint step or of the arc step, according to the bound
    integrator and the size of the angular increment.  Pose and encoder
    memory end up exactly as [updateWithVelEst] leaves them on the same
    state and wheel positions. *)
Theorem update_from_positions_and_velocities (o : Odometry)
  (left_pos right_pos left_vel right_vel : double) (time : Time) :
  let res := update o left_pos right_pos left_vel right_vel time in
  let r := (left_wheel_radius_ o + right_wheel_radius_ o) / Fin 2 in
  let left_dist := left_pos * left_wheel_radius_ o - left_wheel_old_pos_ o in
  let right_dist :=
    right_pos * right_wheel_radius_ o - right_wheel_old_pos_ o in
  let linear := (right_dist + left_dist) * Fin 0.5 in
  let angular := (right_dist - left_dist) / wheel_separation_ o in
  fst res = true
  /\ velocity (snd res)
     = (r * (left_vel + right_vel) / Fin 2,
        r * (right_vel - left_vel) / wheel_separation_ o)
  /\ linear_accum_ (snd res) = linear_accum_ o
  /\ angular_accum_ (snd res) = angular_accum_ o
  /\ heading_ (snd res) = heading_ o + angular
  /\ (integrate_fun_ o = IntegrateExact ->
      Dlt (dabs angular) (Fin 1e-4) ->
      pose (snd res)
      = (x_ o + linear * dcos (heading_ o + angular * Fin 0.5),
         y_ o + linear * dsin (heading_ o + angular * Fin 0.5),
         heading_ o + angular))
  /\ (integrate_fun_ o = IntegrateExact ->
      ~ Dlt (dabs angular) (Fin 1e-4) ->
      pose (snd res)
      = (x_ o + linear / angular
                * (dsin (heading_ o + angular) - dsin (heading_ o)),
         y_ o + - (linear / angular)
                * (dcos (heading_ o + angular) - dcos (heading_ o)),
         heading_ o + angular))
  /\ (integrate_fun_ o = IntegrateRungeKutta2 ->
      pose (snd res)
      = (x_ o + linear * dcos (heading_ o + angular * Fin 0.5),
         y_ o + linear * dsin (heading_ o + angular * Fin 0.5),
         heading_ o + angular))
  /\ encoder_memory (snd res)
     = (left_pos * left_wheel_radius_ o, right_pos * right_wheel_radius_ o)
  /\ (forall time',
         pose (snd res)
         = pose (snd (updateWithVelEst o left_pos right_pos time'))
         /\ encoder_memory (snd res)
            = encoder_memory
                (snd (updateWithVelEst o left_pos right_pos time'))).
Proof.
  intros res r left_dist right_dist linear angular. subst res.
  destruct (encoder_update_pose_cases o left_pos right_pos _
              (update_pose o left_pos right_pos left_vel right_vel time))
    as (Hsmall & Hlarge & Hmid).
  split_all.
  - reflexivity.
  - rewrite update_velocity. unfold r.
    rewrite <- (dhalf (left_wheel_radius_ o + right_wheel_radius_ o)).
    now rewrite (dmul_comm (left_vel + right_vel)).
  - apply update_accums.
  - apply update_accums.
  - apply update_heading.
  - exact Hsmall.
  - exact Hlarge.
  - exact Hmid.
  - apply update_encoder_memory.
  - intros time'. split.
    + now rewrite update_pose, updateWithVelEst_pose.
    + now rewrite update_encoder_memory, updateWithVelEst_encoder_memory.
Qed.

(** Evaluation on finite numbers. *)
Ltac deval :=
  cbn [dadd dsub dmul dneg dabs dsin dcos Dlt];
  rewrite ?ddiv_Fin by lra;
  cbn [dadd dsub dmul dneg dabs dsin dcos Dlt].

Lemma update_from_positions_and_velocities_witness :
  let o := setWheelParams (Odometry_ctor 10) (Fin 1) (Fin 1) (Fin 1) in
  let angular :=
    (Fin 2 * right_wheel_radius_ o - right_wheel_old_pos_ o
     - (Fin 1 * left_wheel_radius_ o - left_wheel_old_pos_ o))
    / wheel_separation_ o in
  let linear :=
    (Fin 2 * right_wheel_radius_ o - right_wheel_old_pos_ o
     + (Fin 1 * left_wheel_radius_ o - left_wheel_old_pos_ o))
    * Fin 0.5 in
  (integrate_fun_ o = IntegrateExact /\ ~ Dlt (dabs angular) (Fin 1e-4))
  /\ angular = Fin 1
  /\ pose (snd (update o (Fin 1) (Fin 2) (Fin 0) (Fin 0) 1))
     = (x_ o + linear / angular
               * (dsin (heading_ o + angular) - dsin (heading_ o)),
        y_ o + - (linear / angular)
               * (dcos (heading_ o + angular) - dcos (heading_ o)),
        heading_ o + angular).
Proof.
  intros o angular linear.
  assert (Hang : angular = Fin 1).
  { unfold angular, o, setWheelParams, Odometry_ctor. odo_cbn. deval.
    f_equal. field. }
  assert (Hlarge : ~ Dlt (dabs angular) (Fin 1e-4)).
  { rewrite Hang. cbn [dabs Dlt]. rewrite Rabs_R1. lra. }
  split; [exact (conj eq_refl Hlarge) | split; [exact Hang |]].
  destruct (update_from_positions_and_velocities o (Fin 1) (Fin 2)
              (Fin 0) (Fin 0) 1)
    as (_ & _ & _ & _ & _ & _ & Harc & _).
  exact (Harc eq_refl Hlarge).
Defined.

(** ** C4: open-loop update *)

(** C4.  [updateOpenLoop] stores [(linear, angular)] as the velocity estimate
    without touching the accumulators, stores [time] as the timestamp, and
    integrates the pose with [(linear * dt, angular * dt)], [dt] being
    measured from the timestamp before the call.  With [linear = 1],
    [angular = 0] and the previous timestamp 2 s earlier, [x] grows by
    [2 * cos heading], [y] by [2 * sin heading] (nothing when the heading is
    zero, where [x] grows by 2), the heading stays and the velocity estimate
    is [(1, 0)]. *)
Theorem updateOpenLoop_effect (o : Odometry) (linear angular : double)
  (time : Time) :
  let dt := (time - timestamp_ o)%R in
  let o' := updateOpenLoop o linear angular time in
  velocity o' = (linear, angular)
  /\ linear_accum_ o' = linear_accum_ o
  /\ angular_accum_ o' = angular_accum_ o
  /\ timestamp_ o' = time
  /\ pose o' = pose (integrate_fun o (linear * Fin dt) (angular * Fin dt))
  /\ ((time - timestamp_ o)%R = 2%R ->
      let o1 := updateOpenLoop o (Fin 1) (Fin 0) time in
      x_ o1 = x_ o + Fin 2 * dcos (heading_ o)
      /\ y_ o1 = y_ o + Fin 2 * dsin (heading_ o)
      /\ heading_ o1 = heading_ o
      /\ velocity o1 = (Fin 1, Fin 0)
      /\ (heading_ o = Fin 0 -> pose o1 = (x_ o + Fin 2, y_ o, Fin 0))).
Proof.
  intros dt o'.
  assert (Hpose : forall lin ang,
             pose (updateOpenLoop o lin ang time)
             = pose (integrate_fun o (lin * Fin (time - timestamp_ o))
                       (ang * Fin (time - timestamp_ o)))).
  { intros lin ang. unfold updateOpenLoop.
    apply integrate_fun_pose_ext; reflexivity. }
  assert (Hvel : forall lin ang,
             velocity (updateOpenLoop o lin ang time) = (lin, ang)).
  { intros lin ang. unfold updateOpenLoop. cbv zeta. odo_simpl.
    reflexivity. }
  subst o'. split_all.
  - apply Hvel.
  - unfold updateOpenLoop. cbv zeta. odo_simpl. reflexivity.
  - unfold updateOpenLoop. cbv zeta. odo_simpl. reflexivity.
  - unfold updateOpenLoop. cbv zeta. odo_simpl. reflexivity.
  - apply Hpose.
  - intros Hdt o1.
    assert (Hp : pose o1
                 = (x_ o + Fin 2 * dcos (heading_ o),
                    y_ o + Fin 2 * dsin (heading_ o),
                    heading_ o)).
    { unfold o1. rewrite Hpose, Hdt. cbn [dmul].
      replace (1 * 2)%R with 2%R by lra. replace (0 * 2)%R with 0%R by lra.
      apply integrate_fun_straight. }
    unfold pose in Hp. injection Hp as Hx Hy Hh.
    split_all; try assumption.
    + apply Hvel.
    + intros Hzero. unfold pose. rewrite Hx, Hy, Hh, Hzero.
      cbn [dcos dsin dmul]. rewrite cos_0, sin_0, Rmult_1_r, Rmult_0_r.
      now rewrite dadd_0_r.
Qed.

Lemma updateOpenLoop_effect_witness :
  (2 - timestamp_ (Odometry_ctor 10))%R = 2%R
  /\ pose (updateOpenLoop (Odometry_ctor 10) (Fin 1) (Fin 0) 2)
     = (Fin 0 + Fin 2, Fin 0, Fin 0)
  /\ velocity (updateOpenLoop (Odometry_ctor 10) (Fin 1) (Fin 0) 2)
     = (Fin 1, Fin 0).
Proof.
  assert (Hdt : (2 - timestamp_ (Odometry_ctor 10))%R = 2%R)
    by (simpl; lra).
  pose proof (updateOpenLoop_effect (Odometry_ctor 10) (Fin 1) (Fin 0) 2)
    as H.
  destruct H as (_ & _ & _ & _ & _ & H).
  destruct (H Hdt) as (_ & _ & _ & Hvel & Hpose).
  split; [exact Hdt | split; [exact (Hpose eq_refl) | exact Hvel]].
Defined.

(** ** C1: update from encoder positions with velocity estimation *)

(** The two outcomes of the interval test. *)
Lemma updateWithVelEst_skip (o : Odometry) (left_pos right_pos : double)
  (time : Time) :
  (time - timestamp_ o < 1e-4)%R ->
  let res := updateWithVelEst o left_pos right_pos time in
  fst res = false
  /\ velocity (snd res) = velocity o
  /\ timestamp_ (snd res) = timestamp_ o
  /\ linear_accum_ (snd res) = linear_accum_ o
  /\ angular_accum_ (snd res) = angular_accum_ o.
Proof.
  intros Hdt. unfold updateWithVelEst. cbv zeta.
  rewrite integrate_fun_timestamp. odo_cbn.
  destruct (Rlt_dec _ _) as [_ | Hge]; [| lra].
  odo_simpl. split_all; reflexivity.
Qed.

Lemma updateWithVelEst_refresh (o : Odometry) (left_pos right_pos : double)
  (time : Time) :
  (time - timestamp_ o >= 1e-4)%R ->
  let dt := (time - timestamp_ o)%R in
  let res := updateWithVelEst o left_pos right_pos time in
  fst res = true
  /\ timestamp_ (snd res) = time
  /\ linear_accum_ (snd res)
     = push (linear_accum_ o)
         (linear_increment o left_pos right_pos / Fin dt)
  /\ angular_accum_ (snd res)
     = push (angular_accum_ o)
         (angular_increment o left_pos right_pos / Fin dt)
  /\ velocity (snd res)
     = (rolling_mean (linear_accum_ (snd res)),
        rolling_mean (angular_accum_ (snd res))).
Proof.
  intros Hdt. unfold updateWithVelEst. cbv zeta.
  rewrite integrate_fun_timestamp. odo_cbn.
  destruct (Rlt_dec _ _) as [Hlt | _]; [lra |].
  odo_simpl. split_all; reflexivity.
Qed.

(** After a reading, the next increments are measured from that reading. *)
Lemma increments_after_reading (o : Odometry)
  (left_pos right_pos left_pos' right_pos' : double) (time : Time) :
  let o1 := snd (updateWithVelEst o left_pos right_pos time) in
  linear_increment o1 left_pos' right_pos'
  = ((right_pos' * right_wheel_radius_ o - right_pos * right_wheel_radius_ o)
     + (left_pos' * left_wheel_radius_ o - left_pos * left_wheel_radius_ o))
    * Fin 0.5
  /\ angular_increment o1 left_pos' right_pos'
     = ((right_pos' * right_wheel_radius_ o
         - right_pos * right_wheel_radius_ o)
        - (left_pos' * left_wheel_radius_ o
           - left_pos * left_wheel_radius_ o))
       / wheel_separation_ o.
Proof.
  intros o1.
  pose proof (updateWithVelEst_encoder_memory o left_pos right_pos time)
    as Hmem.
  pose proof (updateWithVelEst_wheel_params o left_pos right_pos time)
    as Hparams.
  fold o1 in Hmem, Hparams.
  unfold encoder_memory in Hmem. unfold wheel_params in Hparams.
  injection Hmem as Hl Hr. injection Hparams as Hsep Hlr Hrr.
  unfold linear_increment, angular_increment.
  rewrite Hl, Hr, Hsep, Hlr, Hrr. split; reflexivity.
Qed.

(** C1.  [updateWithVelEst] always integrates the pose with the increments
    of the call (the heading grows by the angular increment; [x] and [y] are
    those of the midpoint or of the arc step) and remembers the new wheel
    distances.  If [dt = time - timestamp_ < 1e-4] it returns [false] and
    leaves velocity estimate, timestamp and accumulators alone; otherwise it
    stores [time], pushes [linear / dt] and [angular / dt] into the
    accumulators, reports their rolling means as the velocity estimate and
    returns [true].  After a short-interval call, a call with sufficient
    [dt] is accepted and measures its wheel distances from the reading of
    the rejected call, so that the heading has received the angular
    increments of both calls and the pose those of both steps: no reading is
    skipped. *)
Theorem updateWithVelEst_short_interval (o : Odometry)
  (left_pos right_pos : double) (time : Time) :
  let dt := (time - timestamp_ o)%R in
  let linear := linear_increment o left_pos right_pos in
  let angular := angular_increment o left_pos right_pos in
  let res := updateWithVelEst o left_pos right_pos time in
  (heading_ (snd res) = heading_ o + angular
   /\ (integrate_fun_ o = IntegrateExact ->
       Dlt (dabs angular) (Fin 1e-4) ->
       pose (snd res)
       = (x_ o + linear * dcos (heading_ o + angular * Fin 0.5),
          y_ o + linear * dsin (heading_ o + angular * Fin 0.5),
          heading_ o + angular))
   /\ (integrate_fun_ o = IntegrateExact ->
       ~ Dlt (dabs angular) (Fin 1e-4) ->
       pose (snd res)
       = (x_ o + linear / angular
                 * (dsin (heading_ o + angular) - dsin (heading_ o)),
          y_ o + - (linear / angular)
                 * (dcos (heading_ o + angular) - dcos (heading_ o)),
          heading_ o + angular))
   /\ (integrate_fun_ o = IntegrateRungeKutta2 ->
       pose (snd res)
       = (x_ o + linear * dcos (heading_ o + angular * Fin 0.5),
          y_ o + linear * dsin (heading_ o + angular * Fin 0.5),
          heading_ o + angular))
   /\ encoder_memory (snd res)
      = (left_pos * left_wheel_radius_ o, right_pos * right_wheel_radius_ o))
  /\ ((dt < 1e-4)%R ->
      fst res = false
      /\ velocity (snd res) = velocity o
      /\ timestamp_ (snd res) = timestamp_ o
      /\ linear_accum_ (snd res) = linear_accum_ o
      /\ angular_accum_ (snd res) = angular_accum_ o)
  /\ ((dt >= 1e-4)%R ->
      fst res = true
      /\ timestamp_ (snd res) = time
      /\ linear_accum_ (snd res) = push (linear_accum_ o) (linear / Fin dt)
      /\ angular_accum_ (snd res)
         = push (angular_accum_ o) (angular / Fin dt)
      /\ velocity (snd res)
         = (rolling_mean (linear_accum_ (snd res)),
            rolling_mean (angular_accum_ (snd res))))
  /\ (forall left_pos' right_pos' time',
         (dt < 1e-4)%R ->
         (time' - timestamp_ o >= 1e-4)%R ->
         let left_dist' :=
           left_pos' * left_wheel_radius_ o
           - left_pos * left_wheel_radius_ o in
         let right_dist' :=
           right_pos' * right_wheel_radius_ o
           - right_pos * right_wheel_radius_ o in
         let linear' := (right_dist' + left_dist') * Fin 0.5 in
         let angular' := (right_dist' - left_dist') / wheel_separation_ o in
         let res' := updateWithVelEst (snd res) left_pos' right_pos' time' in
         fst res' = true
         /\ heading_ (snd res') = heading_ o + angular + angular'
         /\ (integrate_fun_ o = IntegrateExact ->
             Dlt (dabs angular') (Fin 1e-4) ->
             pose (snd res')
             = (x_ (snd res)
                + linear' * dcos (heading_ o + angular + angular' * Fin 0.5),
                y_ (snd res)
                + linear' * dsin (heading_ o + angular + angular' * Fin 0.5),
                heading_ o + angular + angular'))
         /\ (integrate_fun_ o = IntegrateExact ->
             ~ Dlt (dabs angular') (Fin 1e-4) ->
             pose (snd res')
             = (x_ (snd res)
                + linear' / angular'
                  * (dsin (heading_ o + angular + angular')
                     - dsin (heading_ o + angular)),
                y_ (snd res)
                + - (linear' / angular')
                  * (dcos (heading_ o + angular + angular')
                     - dcos (heading_ o + angular)),
                heading_ o + angular + angular'))
         /\ encoder_memory (snd res')
            = (left_pos' * left_wheel_radius_ o,
               right_pos' * right_wheel_radius_ o)).
Proof.
  intros dt linear angular res.
  destruct (encoder_update_pose_cases o left_pos right_pos _
              (updateWithVelEst_pose o left_pos right_pos time))
    as (Hsmall & Hlarge & Hmid).
  pose proof (updateWithVelEst_heading o left_pos right_pos time) as Hhead.
  fold res angular in Hhead.
  split_all.
  - exact Hhead.
  - exact Hsmall.
  - exact Hlarge.
  - exact Hmid.
  - apply updateWithVelEst_encoder_memory.
  - apply updateWithVelEst_skip.
  - apply updateWithVelEst_refresh.
  - intros left_pos' right_pos' time' Hdt Hdt'
      left_dist' right_dist' linear' angular' res'.
    destruct (increments_after_reading o left_pos right_pos
                left_pos' right_pos' time) as [Hlin Hang].
    fold res left_dist' right_dist' linear' angular' in Hlin, Hang.
    destruct (updateWithVelEst_skip o left_pos right_pos time Hdt)
      as (_ & _ & Hstamp & _).
    fold res in Hstamp.
    assert (Hdt1 : (time' - timestamp_ (snd res) >= 1e-4)%R)
      by (rewrite Hstamp; exact Hdt').
    assert (Htag : integrate_fun_ (snd res) = integrate_fun_ o)
      by apply updateWithVelEst_integrate_fun_.
    pose proof (updateWithVelEst_wheel_params o left_pos right_pos time)
      as Hparams.
    fold res in Hparams. unfold wheel_params in Hparams.
    injection Hparams as _ Hlr Hrr.
    destruct (encoder_update_pose_cases (snd res) left_pos' right_pos' _
                (updateWithVelEst_pose (snd res) left_pos' right_pos' time'))
      as (Hsmall' & Hlarge' & _).
    fold res' in Hsmall', Hlarge'.
    rewrite Hlin, Hang, Htag in Hsmall', Hlarge'.
    unfold midpoint_pose in Hsmall'. unfold arc_pose in Hlarge'.
    rewrite Hhead in Hsmall', Hlarge'.
    split_all.
    + now apply updateWithVelEst_refresh.
    + unfold res'. now rewrite updateWithVelEst_heading, Hang, Hhead.
    + exact Hsmall'.
    + exact Hlarge'.
    + unfold res'. now rewrite updateWithVelEst_encoder_memory, Hlr, Hrr.
Qed.

Lemma updateWithVelEst_short_interval_witness :
  let o := setWheelParams (Odometry_ctor 10) (Fin 1) (Fin 1) (Fin 1) in
  let short := updateWithVelEst o (Fin 1) (Fin 2) 0 in
  let angular := angular_increment o (Fin 1) (Fin 2) in
  let linear := linear_increment o (Fin 1) (Fin 2) in
  ((0 - timestamp_ o < 1e-4)%R
   /\ (1 - timestamp_ o >= 1e-4)%R
   /\ integrate_fun_ o = IntegrateExact
   /\ ~ Dlt (dabs angular) (Fin 1e-4))
  /\ (fst short = false
      /\ velocity (snd short) = velocity o
      /\ pose (snd short)
         = (x_ o + linear / angular
                   * (dsin (heading_ o + angular) - dsin (heading_ o)),
            y_ o + - (linear / angular)
                   * (dcos (heading_ o + angular) - dcos (heading_ o)),
            heading_ o + angular))
  /\ fst (updateWithVelEst o (Fin 1) (Fin 2) 1) = true
  /\ fst (updateWithVelEst (snd short) (Fin 2) (Fin 5) 1) = true
  /\ heading_ (snd (updateWithVelEst (snd short) (Fin 2) (Fin 5) 1))
     = heading_ o + angular
       + (Fin 5 * right_wheel_radius_ o - Fin 2 * right_wheel_radius_ o
          - (Fin 2 * left_wheel_radius_ o - Fin 1 * left_wheel_radius_ o))
         / wheel_separation_ o.
Proof.
  intros o short angular linear.
  assert (Hshort : (0 - timestamp_ o < 1e-4)%R) by (simpl; lra).
  assert (Hlong : (1 - timestamp_ o >= 1e-4)%R) by (simpl; lra).
  assert (Hang : angular = Fin 1).
  { unfold angular, angular_increment, o, setWheelParams, Odometry_ctor.
    odo_cbn. deval. f_equal. field. }
  assert (Hlarge : ~ Dlt (dabs angular) (Fin 1e-4)).
  { rewrite Hang. cbn [dabs Dlt]. rewrite Rabs_R1. lra. }
  pose proof (updateWithVelEst_short_interval o (Fin 1) (Fin 2) 0) as H0.
  cbv zeta in H0.
  destruct H0 as ((_ & _ & Harc & _) & Hskip & _ & Hnext).
  destruct (Hskip Hshort) as (Hfalse & Hvel & _).
  destruct (Hnext (Fin 2) (Fin 5) 1%R Hshort Hlong)
    as (Htrue & Hhead & _).
  split; [split_all; try assumption; reflexivity |].
  split; [split_all; [exact Hfalse | exact Hvel
                      | exact (Harc eq_refl Hlarge)] |].
  split; [| split; [exact Htrue | exact Hhead]].
  exact (proj1 (proj1 (proj2 (proj2
           (updateWithVelEst_short_interval o (Fin 1) (Fin 2) 1))) Hlong)).
Defined.

(** ** C10: the freshly constructed estimator *)

Lemma zero_separation_increment (o : Odometry) (left_pos right_pos : double) :
  wheel_separation_ o = Fin 0 ->
  ~ finite (angular_increment o left_pos right_pos).
Proof.
  intros Hsep. unfold angular_increment. rewrite Hsep.
  apply ddiv_zero_not_finite.
Qed.

Lemma fresh_increment_is_NaN (n : nat) (left_pos right_pos : R) :
  angular_increment (Odometry_ctor n) (Fin left_pos) (Fin right_pos) = NaN.
Proof.
  unfold angular_increment, Odometry_ctor. odo_cbn.
  cbn [dadd dsub dmul dneg ddiv].
  destruct (Req_EM_T 0 0) as [_ | Hne]; [| now contradiction Hne].
  unfold inf_of_sign.
  destruct (Rlt_dec _ _) as [Hpos | _]; [lra |].
  destruct (Rlt_dec _ _) as [Hneg | _]; [lra | reflexivity].
Qed.

(** C10.  A freshly constructed estimator, whatever its window size, has pose
    [(0, 0, 0)], velocity estimate [(0, 0)], encoder memory [(0, 0)],
    timestamp [0] and wheel separation and radii [0].  Both encoder-based
    updates add to the heading the wheel-distance difference divided by the
    stored wheel separation, with no test on the divisor: on any estimator
    whose separation is zero the quotient is not a finite number, and the
    update leaves [x] and [y] NaN and the heading not finite; on the fresh
    estimator, for finite wheel positions, it is [0 / 0] and the whole pose
    is NaN. *)
Theorem fresh_estimator_zero_separation (n : nat) :
  let o := Odometry_ctor n in
  pose o = (Fin 0, Fin 0, Fin 0)
  /\ velocity o = (Fin 0, Fin 0)
  /\ encoder_memory o = (Fin 0, Fin 0)
  /\ timestamp_ o = 0%R
  /\ wheel_params o = (Fin 0, Fin 0, Fin 0)
  /\ (forall s left_pos right_pos time,
         heading_ (snd (updateWithVelEst s left_pos right_pos time))
         = heading_ s
           + ((right_pos * right_wheel_radius_ s - right_wheel_old_pos_ s)
              - (left_pos * left_wheel_radius_ s - left_wheel_old_pos_ s))
             / wheel_separation_ s)
  /\ (forall s left_pos right_pos left_vel right_vel time,
         heading_ (snd (update s left_pos right_pos left_vel right_vel time))
         = heading_ s
           + ((right_pos * right_wheel_radius_ s - right_wheel_old_pos_ s)
              - (left_pos * left_wheel_radius_ s - left_wheel_old_pos_ s))
             / wheel_separation_ s)
  /\ (forall s left_pos right_pos left_vel right_vel time,
         wheel_separation_ s = Fin 0 ->
         let s1 := snd (updateWithVelEst s left_pos right_pos time) in
         let s2 :=
           snd (update s left_pos right_pos left_vel right_vel time) in
         (x_ s1 = NaN /\ y_ s1 = NaN /\ ~ finite (heading_ s1))
         /\ (x_ s2 = NaN /\ y_ s2 = NaN /\ ~ finite (heading_ s2)))
  /\ (forall (left_pos right_pos : R) left_vel right_vel time,
         pose (snd (updateWithVelEst o (Fin left_pos) (Fin right_pos) time))
         = (NaN, NaN, NaN)
         /\ pose (snd (update o (Fin left_pos) (Fin right_pos)
                         left_vel right_vel time))
            = (NaN, NaN, NaN)).
Proof.
  intros o.
  assert (Hnan : forall s left_pos right_pos s',
             pose s' = pose (integrate_fun s
                               (linear_increment s left_pos right_pos)
                               (angular_increment s left_pos right_pos)) ->
             ~ finite (angular_increment s left_pos right_pos) ->
             x_ s' = NaN /\ y_ s' = NaN /\ ~ finite (heading_ s')).
  { intros s left_pos right_pos s' Hpose Hnf.
    unfold pose in Hpose. injection Hpose as -> -> ->.
    now apply integrate_fun_not_finite. }
  split_all; try reflexivity.
  - intros. apply updateWithVelEst_heading.
  - intros. apply update_heading.
  - intros s left_pos right_pos left_vel right_vel time Hsep s1 s2.
    pose proof (zero_separation_increment s left_pos right_pos Hsep) as Hnf.
    split.
    + exact (Hnan s left_pos right_pos s1
               (updateWithVelEst_pose s left_pos right_pos time) Hnf).
    + exact (Hnan s left_pos right_pos s2
               (update_pose s left_pos right_pos left_vel right_vel time)
               Hnf).
  - intros left_pos right_pos left_vel right_vel time.
    assert (Hnf : ~ finite (angular_increment o (Fin left_pos)
                              (Fin right_pos)))
      by (apply zero_separation_increment; reflexivity).
    pose proof (fresh_increment_is_NaN n left_pos right_pos) as Hinc.
    fold o in Hinc.
    split.
    + destruct (Hnan o (Fin left_pos) (Fin right_pos) _
                  (updateWithVelEst_pose o (Fin left_pos) (Fin right_pos)
                     time) Hnf) as (Hx & Hy & _).
      unfold pose. rewrite Hx, Hy, updateWithVelEst_heading, Hinc.
      reflexivity.
    + destruct (Hnan o (Fin left_pos) (Fin right_pos) _
                  (update_pose o (Fin left_pos) (Fin right_pos)
                     left_vel right_vel time) Hnf) as (Hx & Hy & _).
      unfold pose. rewrite Hx, Hy, update_heading, Hinc. reflexivity.
Qed.

Lemma fresh_estimator_zero_separation_witness :
  let s := setWheelParams (Odometry_ctor 10) (Fin 0) (Fin 1) (Fin 1) in
  wheel_separation_ s = Fin 0
  /\ x_ (snd (update s (Fin 1) (Fin 2) (Fin 0) (Fin 0) 1)) = NaN
  /\ y_ (snd (update s (Fin 1) (Fin 2) (Fin 0) (Fin 0) 1)) = NaN
  /\ ~ finite (heading_ (snd (update s (Fin 1) (Fin 2) (Fin 0) (Fin 0) 1))).
Proof.
  intros s.
  assert (Hsep : wheel_separation_ s = Fin 0) by reflexivity.
  split; [exact Hsep |].
  destruct (fresh_estimator_zero_separation 10)
    as (_ & _ & _ & _ & _ & _ & _ & Hzero & _).
  exact (proj2 (Hzero s (Fin 1) (Fin 2) (Fin 0) (Fin 0) 1%R Hsep)).
Defined.

(** ** C5: what velocity estimate and pose depend on in [update] *)

(** Reading the same finite wheel distances again gives zero increments, if
    the separation is a non-zero number. *)
Lemma held_increments (o : Odometry) (left_pos right_pos : double)
  (separation : R) :
  left_wheel_old_pos_ o = left_pos * left_wheel_radius_ o ->
  right_wheel_old_pos_ o = right_pos * right_wheel_radius_ o ->
  finite (left_pos * left_wheel_radius_ o) ->
  finite (right_pos * right_wheel_radius_ o) ->
  wheel_separation_ o = Fin separation ->
  separation <> 0%R ->
  linear_increment o left_pos right_pos = Fin 0
  /\ angular_increment o left_pos right_pos = Fin 0.
Proof.
  intros Hl Hr Hfl Hfr Hsep Hnz.
  unfold linear_increment, angular_increment. rewrite Hl, Hr, Hsep.
  apply finite_Fin in Hfl as [l ->]. apply finite_Fin in Hfr as [r ->].
  deval. split; f_equal; field; exact Hnz.
Qed.

(** C5.  The velocity estimate [update] reports is a function of the supplied
    wheel rates, the radii and the separation: from any two states with the
    same wheel parameters, equal rates give equal estimates, whatever the
    positions and times.  The pose (and encoder memory) it leaves does not
    depend on the supplied rates.  When the wheel positions are held at the
    values of the previous call (finite wheel distances, a separation that
    is a non-zero number, a heading that is a number), the pose stays where
    it was whatever the rates, while the estimate follows the rates: with a
    non-zero mean radius, rates [(1, 1)] and [(0, 0)] give different
    estimates. *)
Theorem update_velocity_pose_decoupled (o : Odometry) :
  (forall o' left_pos right_pos left_pos' right_pos' lv rv time time',
      wheel_params o = wheel_params o' ->
      velocity (snd (update o left_pos right_pos lv rv time))
      = velocity (snd (update o' left_pos' right_pos' lv rv time')))
  /\ (forall left_pos right_pos lv rv lv' rv' time time',
         pose (snd (update o left_pos right_pos lv rv time))
         = pose (snd (update o left_pos right_pos lv' rv' time'))
         /\ encoder_memory (snd (update o left_pos right_pos lv rv time))
            = encoder_memory
                (snd (update o left_pos right_pos lv' rv' time')))
  /\ (forall left_pos right_pos lv rv lv' rv' time time',
         let held := snd (update o left_pos right_pos lv rv time) in
         let r := (left_wheel_radius_ o + right_wheel_radius_ o) * Fin 0.5 in
         velocity (snd (update held left_pos right_pos lv' rv' time'))
         = ((lv' + rv') * r / Fin 2,
            r * (rv' - lv') / wheel_separation_ o)
         /\ (forall separation,
                wheel_separation_ o = Fin separation ->
                separation <> 0%R ->
                finite (left_pos * left_wheel_radius_ o) ->
                finite (right_pos * right_wheel_radius_ o) ->
                finite (heading_ held) ->
                pose (snd (update held left_pos right_pos lv' rv' time'))
                = pose held)
         /\ (forall left_radius right_radius,
                left_wheel_radius_ o = Fin left_radius ->
                right_wheel_radius_ o = Fin right_radius ->
                (left_radius + right_radius)%R <> 0%R ->
                velocity (snd (update held left_pos right_pos
                                 (Fin 1) (Fin 1) time'))
                <> velocity (snd (update held left_pos right_pos
                                    (Fin 0) (Fin 0) time')))).
Proof.
  split_all.
  - intros o' left_pos right_pos left_pos' right_pos' lv rv time time' Hwp.
    rewrite !update_velocity. unfold wheel_params in Hwp.
    injection Hwp as -> -> ->. reflexivity.
  - intros. split.
    + now rewrite !update_pose.
    + now rewrite !update_encoder_memory.
  - intros left_pos right_pos lv rv lv' rv' time time' held r.
    assert (Hmem : encoder_memory held
                   = (left_pos * left_wheel_radius_ o,
                      right_pos * right_wheel_radius_ o))
      by apply update_encoder_memory.
    assert (Hwp : wheel_params held = wheel_params o)
      by apply update_wheel_params.
    unfold encoder_memory in Hmem. unfold wheel_params in Hwp.
    injection Hmem as Hl Hr. injection Hwp as Hsep Hlr Hrr.
    assert (Hvel : forall a b,
               velocity (snd (update held left_pos right_pos a b time'))
               = ((a + b) * r / Fin 2,
                  r * (b - a) / wheel_separation_ o)).
    { intros a b. rewrite update_velocity, Hlr, Hrr, Hsep. reflexivity. }
    split_all.
    + apply Hvel.
    + intros separation Hs Hnz Hfl Hfr Hh.
      destruct (held_increments held left_pos right_pos separation)
        as [Hlin Hang]; rewrite ?Hlr, ?Hrr, ?Hsep; try assumption.
      rewrite update_pose, Hlin, Hang. now apply integrate_fun_zero.
    + intros left_radius right_radius Hrl Hrr' Hsum.
      rewrite !Hvel. unfold r. rewrite Hrl, Hrr'. deval.
      intros Heq. injection Heq as Hlin _. apply Hsum.
      unfold Rdiv in Hlin. lra.
Qed.

Lemma update_velocity_pose_decoupled_witness :
  let o := setWheelParams (Odometry_ctor 10) (Fin 1) (Fin 1) (Fin 1) in
  let held := snd (update o (Fin 3) (Fin 3) (Fin 0) (Fin 0) 1) in
  (wheel_params o
   = wheel_params (snd (update o (Fin 1) (Fin 2) (Fin 5) (Fin 5) 1))
   /\ velocity (snd (update o (Fin 3) (Fin 4) (Fin 1) (Fin 2) 2))
      = velocity (snd (update (snd (update o (Fin 1) (Fin 2) (Fin 5) (Fin 5)
                                      1))
                         (Fin 7) (Fin 8) (Fin 1) (Fin 2) 3)))
  /\ ((wheel_separation_ o = Fin 1 /\ 1%R <> 0%R
       /\ finite (Fin 3 * left_wheel_radius_ o)
       /\ finite (Fin 3 * right_wheel_radius_ o)
       /\ finite (heading_ held))
      /\ pose (snd (update held (Fin 3) (Fin 3) (Fin 7) (Fin 9) 2))
         = pose held)
  /\ ((left_wheel_radius_ o = Fin 1 /\ right_wheel_radius_ o = Fin 1
       /\ (1 + 1)%R <> 0%R)
      /\ velocity (snd (update held (Fin 3) (Fin 3) (Fin 1) (Fin 1) 2))
         <> velocity (snd (update held (Fin 3) (Fin 3) (Fin 0) (Fin 0) 2))).
Proof.
  intros o held.
  assert (Hwp : wheel_params o
                = wheel_params (snd (update o (Fin 1) (Fin 2) (Fin 5)
                                       (Fin 5) 1)))
    by (symmetry; apply update_wheel_params).
  assert (Hone : 1%R <> 0%R) by lra.
  assert (Htwo : (1 + 1)%R <> 0%R) by lra.
  assert (Hfin : finite (Fin 3 * Fin 1)) by exact I.
  assert (Hhead : finite (heading_ held)).
  { unfold held. rewrite update_heading.
    unfold angular_increment, o, setWheelParams, Odometry_ctor.
    odo_cbn. deval. exact I. }
  destruct (update_velocity_pose_decoupled o) as (Hvel & _ & Hheld).
  destruct (Hheld (Fin 3) (Fin 3) (Fin 0) (Fin 0) (Fin 7) (Fin 9) 1%R 2%R)
    as (_ & Hpose & _).
  destruct (Hheld (Fin 3) (Fin 3) (Fin 0) (Fin 0) (Fin 7) (Fin 9) 1%R 2%R)
    as (_ & _ & Hdiff).
  split; [split; [exact Hwp |] | split; split].
  - exact (Hvel _ (Fin 3) (Fin 4) (Fin 7) (Fin 8) (Fin 1) (Fin 2) 2%R 3%R
             Hwp).
  - split_all; try assumption; reflexivity.
  - exact (Hpose 1%R eq_refl Hone Hfin Hfin Hhead).
  - split_all; try assumption; reflexivity.
  - exact (Hdiff 1%R 1%R eq_refl eq_refl Htwo).
Defined.

(** ** C8: the timestamp *)

(** C8, as the code has it.  [init] and [updateOpenLoop] always store their
    time argument, [updateWithVelEst] stores it exactly when
    [dt >= 1e-4], and [update] never reads or writes the timestamp; every
    one of the three updates integrates the pose.  So the timestamp is the
    time of the latest call that stored it, not of the latest call that
    changed pose or velocity estimate. *)
Theorem timestamp_set_by (o : Odometry) :
  (forall time, timestamp_ (init o time) = time)
  /\ (forall linear angular time,
         timestamp_ (updateOpenLoop o linear angular time) = time)
  /\ (forall left_pos right_pos time,
         (time - timestamp_ o >= 1e-4)%R ->
         timestamp_ (snd (updateWithVelEst o left_pos right_pos time)) = time)
  /\ (forall left_pos right_pos time,
         (time - timestamp_ o < 1e-4)%R ->
         timestamp_ (snd (updateWithVelEst o left_pos right_pos time))
         = timestamp_ o)
  /\ (forall left_pos right_pos left_vel right_vel time,
         timestamp_ (snd (update o left_pos right_pos left_vel right_vel time))
         = timestamp_ o).
Proof.
  split_all; intros.
  - reflexivity.
  - unfold updateOpenLoop. cbv zeta. odo_simpl. reflexivity.
  - rewrite updateWithVelEst_timestamp.
    destruct (Rlt_dec _ _); [lra | reflexivity].
  - rewrite updateWithVelEst_timestamp.
    destruct (Rlt_dec _ _); [reflexivity | lra].
  - apply update_timestamp.
Qed.

Lemma timestamp_set_by_witness :
  let o := setWheelParams (Odometry_ctor 10) (Fin 1) (Fin 1) (Fin 1) in
  ((5 - timestamp_ o >= 1e-4)%R
   /\ timestamp_ (snd (updateWithVelEst o (Fin 1) (Fin 1) 5)) = 5%R)
  /\ ((0 - timestamp_ o < 1e-4)%R
      /\ timestamp_ (snd (updateWithVelEst o (Fin 1) (Fin 1) 0))
         = timestamp_ o).
Proof.
  intros o.
  assert (Hlong : (5 - timestamp_ o >= 1e-4)%R) by (simpl; lra).
  assert (Hshort : (0 - timestamp_ o < 1e-4)%R) by (simpl; lra).
  destruct (timestamp_set_by o) as (_ & _ & Hset & Hkeep & _).
  split; split; [exact Hlong | exact (Hset (Fin 1) (Fin 1) 5%R Hlong)
                 | exact Hshort | exact (Hkeep (Fin 1) (Fin 1) 0%R Hshort)].
Defined.

(** C8 as stated fails: an [update] call at time 5 on an estimator stamped 0
    moves the pose and replaces the velocity estimate, yet the timestamp is
    still 0; so does, for the pose, an [updateWithVelEst] call whose [dt] is
    below the threshold. *)
Lemma timestamp_not_latest_update :
  let o := setWheelParams (Odometry_ctor 10) (Fin 1) (Fin 1) (Fin 1) in
  let o' := snd (update o (Fin 1) (Fin 1) (Fin 1) (Fin 1) 5) in
  let o'' := snd (updateWithVelEst o' (Fin 2) (Fin 2) 0.00005) in
  (pose o' <> pose o /\ velocity o' <> velocity o /\ timestamp_ o' <> 5%R)
  /\ (pose o'' <> pose o' /\ timestamp_ o'' <> 0.00005%R).
Proof.
  intros o o' o''.
  assert (Hpose : pose o'
                  = (Fin 0 + Fin 1 * dcos (Fin 0),
                     Fin 0 + Fin 1 * dsin (Fin 0), Fin 0)).
  { unfold o'. rewrite update_pose.
    replace (linear_increment o (Fin 1) (Fin 1)) with (Fin 1)
      by (unfold linear_increment, o, setWheelParams, Odometry_ctor;
          odo_cbn; deval; f_equal; lra).
    replace (angular_increment o (Fin 1) (Fin 1)) with (Fin 0)
      by (unfold angular_increment, o, setWheelParams, Odometry_ctor;
          odo_cbn; deval; f_equal; field).
    apply integrate_fun_straight. }
  assert (Hvel : velocity o'
                 = ((Fin 1 + Fin 1) * ((Fin 1 + Fin 1) * Fin 0.5) / Fin 2,
                    (Fin 1 + Fin 1) * Fin 0.5 * (Fin 1 - Fin 1) / Fin 1))
    by apply update_velocity.
  assert (Hstamp : timestamp_ o' = 0%R) by apply update_timestamp.
  assert (Hmem : encoder_memory o' = (Fin 1 * Fin 1, Fin 1 * Fin 1))
    by apply update_encoder_memory.
  assert (Hwp : wheel_params o' = (Fin 1, Fin 1, Fin 1))
    by apply update_wheel_params.
  unfold encoder_memory in Hmem. unfold wheel_params in Hwp.
  injection Hmem as Hl Hr. injection Hwp as Hsep Hlr Hrr.
  unfold pose in Hpose. injection Hpose as Hx Hy Hh.
  assert (Hpose' : pose o''
                   = (x_ o' + Fin 1 * dcos (heading_ o'),
                      y_ o' + Fin 1 * dsin (heading_ o'),
                      heading_ o')).
  { unfold o''. rewrite updateWithVelEst_pose.
    replace (linear_increment o' (Fin 2) (Fin 2)) with (Fin 1)
      by (unfold linear_increment; rewrite Hl, Hr, Hlr, Hrr; deval;
          f_equal; lra).
    replace (angular_increment o' (Fin 2) (Fin 2)) with (Fin 0)
      by (unfold angular_increment; rewrite Hl, Hr, Hlr, Hrr, Hsep; deval;
          f_equal; field).
    apply integrate_fun_straight. }
  assert (Hstamp' : timestamp_ o'' = 0%R).
  { unfold o''. rewrite updateWithVelEst_timestamp, Hstamp.
    destruct (Rlt_dec _ _); [reflexivity | lra]. }
  split; split_all.
  - unfold pose. rewrite Hx. cbn. rewrite cos_0.
    intros Heq. injection Heq as Hx0. lra.
  - rewrite Hvel. unfold velocity. cbn [velocity linear_vel_ angular_vel_ o
      setWheelParams set_wheel_params Odometry_ctor].
    deval. intros Heq. injection Heq as Hlin. lra.
  - rewrite Hstamp. lra.
  - rewrite Hpose'. unfold pose. rewrite Hh, Hx. cbn [dcos dmul dadd].
    rewrite cos_0. intros Heq. injection Heq as Hx'. lra.
  - rewrite Hstamp'. lra.
Qed.

(** ** C6: the rolling mean *)









Section RollingMeanFilter.

Variable n : nat.
Hypothesis n_positive : (1 <= n)%nat.






End RollingMeanFilter.



(** * Further properties *)

(** ** Turning on the spot *)

(** X6.  When the two wheels have travelled opposite finite distances since
    the last reading, the separation is a non-zero number and the heading a
    number, an encoder update leaves [x] and [y] alone and turns the heading
    by twice the right wheel's distance over the separation. *)
Theorem opposite_wheels_turn_on_the_spot (o : Odometry)
  (left_pos right_pos : double) (distance separation heading : R) :
  let left_dist := left_pos * left_wheel_radius_ o - left_wheel_old_pos_ o in
  let right_dist :=
    right_pos * right_wheel_radius_ o - right_wheel_old_pos_ o in
  right_dist = Fin distance ->
  left_dist = Fin (- distance) ->
  wheel_separation_ o = Fin separation ->
  separation <> 0%R ->
  heading_ o = Fin heading ->
  forall left_vel right_vel time,
    pose (snd (update o left_pos right_pos left_vel right_vel time))
    = (x_ o, y_ o, heading_ o + Fin 2 * right_dist / wheel_separation_ o)
    /\ pose (snd (updateWithVelEst o left_pos right_pos time))
       = (x_ o, y_ o, heading_ o + Fin 2 * right_dist / wheel_separation_ o).
Proof.
  intros left_dist right_dist Hr Hl Hsep Hnz Hh left_vel right_vel time.
  assert (Hlin : linear_increment o left_pos right_pos = Fin 0).
  { unfold linear_increment. fold left_dist right_dist. rewrite Hr, Hl.
    deval. f_equal. lra. }
  assert (Hang : angular_increment o left_pos right_pos
                 = Fin (2 * distance / separation)).
  { unfold angular_increment. fold left_dist right_dist.
    rewrite Hr, Hl, Hsep. deval. f_equal. field. exact Hnz. }
  rewrite update_pose, updateWithVelEst_pose, Hlin, Hang.
  rewrite (integrate_fun_turn o heading _ Hh), Hr, Hsep, Hh. deval.
  split; reflexivity.
Qed.

Lemma opposite_wheels_turn_on_the_spot_witness :
  let o := setWheelParams (Odometry_ctor 10) (Fin 1) (Fin 1) (Fin 1) in
  (Fin 1 * right_wheel_radius_ o - right_wheel_old_pos_ o = Fin 1
   /\ Fin (-1) * left_wheel_radius_ o - left_wheel_old_pos_ o = Fin (- 1)
   /\ wheel_separation_ o = Fin 1
   /\ 1%R <> 0%R
   /\ heading_ o = Fin 0)
  /\ pose (snd (update o (Fin (-1)) (Fin 1) (Fin 0) (Fin 0) 1))
     = (x_ o, y_ o,
        heading_ o
        + Fin 2 * (Fin 1 * right_wheel_radius_ o - right_wheel_old_pos_ o)
          / wheel_separation_ o).
Proof.
  intros o.
  assert (Hr : Fin 1 * right_wheel_radius_ o - right_wheel_old_pos_ o
               = Fin 1)
    by (unfold o, setWheelParams, Odometry_ctor; odo_cbn; deval; f_equal;
        lra).
  assert (Hl : Fin (-1) * left_wheel_radius_ o - left_wheel_old_pos_ o
               = Fin (- 1))
    by (unfold o, setWheelParams, Odometry_ctor; odo_cbn; deval; f_equal;
        lra).
  assert (Hnz : 1%R <> 0%R) by lra.
  split; [split_all; try assumption; reflexivity |].
  exact (proj1 (opposite_wheels_turn_on_the_spot o (Fin (-1)) (Fin 1)
                  1 1 0 Hr Hl eq_refl Hnz eq_refl (Fin 0) (Fin 0) 1%R)).
Defined.

(** ** Exchanging the wheels *)

Lemma integrate_fun_mirror (o : Odometry) (linear angular : double) :
  let o' := integrate_fun o linear angular in
  pose (integrate_fun (mirror o) linear (- angular))
  = (x_ o', - y_ o', - heading_ o').
Proof.
  intros o'. subst o'.
  unfold integrate_fun, integrateExact, integrateRungeKutta2, mirror, pose.
  odo_cbn. rewrite dabs_dneg.
  assert (Hdir : - heading_ o + - angular * Fin 0.5
                 = - (heading_ o + angular * Fin 0.5))
    by now rewrite dmul_dneg_l, dneg_dadd.
  assert (Hnew : - heading_ o + - angular = - (heading_ o + angular))
    by now rewrite dneg_dadd.
  assert (Hmid :
            (x_ o + linear * dcos (- heading_ o + - angular * Fin 0.5),
             - y_ o + linear * dsin (- heading_ o + - angular * Fin 0.5),
             - heading_ o + - angular)
            = (x_ o + linear * dcos (heading_ o + angular * Fin 0.5),
               - (y_ o + linear * dsin (heading_ o + angular * Fin 0.5)),
               - (heading_ o + angular))).
  { rewrite Hdir, Hnew, dcos_dneg, dsin_dneg, dmul_dneg_r.
    now rewrite (dneg_dadd (y_ o)). }
  destruct (integrate_fun_ o); [destruct (Dlt_dec _ _) as [Hs | Hl] |];
    odo_cbn; try exact Hmid.
  assert (Hnz : angular <> Fin 0).
  { intros ->. apply Hl. cbn [dabs Dlt]. rewrite Rabs_R0. lra. }
  rewrite Hnew, !dcos_dneg, !dsin_dneg, (ddiv_dneg_r _ _ Hnz).
  rewrite <- dneg_dsub, dmul_dneg_l, dmul_dneg_r, !dneg_involutive.
  rewrite (dneg_dadd (y_ o)), dmul_dneg_l, dneg_involutive.
  reflexivity.
Qed.

(** X8.  Exchanging the two wheels mirrors the track.  On the mirrored
    estimator (left and right radii and remembered distances exchanged, [y]
    and heading negated) an encoder update with the two wheel positions
    exchanged yields the mirrored pose: the same [x], the negated [y] and
    heading. *)
Theorem exchanged_wheels_mirror_pose (o : Odometry)
  (left_pos right_pos left_vel right_vel : double) (time : Time) :
  let o' := snd (update o left_pos right_pos left_vel right_vel time) in
  pose (snd (update (mirror o) right_pos left_pos right_vel left_vel time))
  = (x_ o', - y_ o', - heading_ o')
  /\ pose (snd (updateWithVelEst (mirror o) right_pos left_pos time))
     = (x_ o', - y_ o', - heading_ o').
Proof.
  intros o'.
  assert (Hlin : linear_increment (mirror o) right_pos left_pos
                 = linear_increment o left_pos right_pos).
  { unfold linear_increment, mirror. odo_cbn. now rewrite dadd_comm. }
  assert (Hang : angular_increment (mirror o) right_pos left_pos
                 = - angular_increment o left_pos right_pos).
  { unfold angular_increment, mirror. odo_cbn.
    now rewrite <- ddiv_dneg_l, <- dsub_swap. }
  assert (Hpose : pose o'
                  = pose (integrate_fun o
                            (linear_increment o left_pos right_pos)
                            (angular_increment o left_pos right_pos)))
    by apply update_pose.
  unfold pose in Hpose. injection Hpose as Hx Hy Hh.
  rewrite update_pose, updateWithVelEst_pose, Hlin, Hang, Hx, Hy, Hh.
  split; apply integrate_fun_mirror.
Qed.

(** ** Changing the wheel parameters between readings *)

(** X11.  The encoder memory holds distances, that is positions already
    multiplied by the radii of the time.  After an [update] at some wheel
    positions, [setWheelParams] with new radii makes the next reading of the
    very same positions appear as motion: each wheel's distance is taken as
    [position * new radius - position * old radius].  A change of the
    separation alone, to a non-zero number, does no such thing: with finite
    wheel distances and a heading that is a number, the pose stays where it
    was. *)
Theorem radius_change_is_integrated (o : Odometry)
  (left_pos right_pos left_vel right_vel : double) (time : Time) :
  let o1 := snd (update o left_pos right_pos left_vel right_vel time) in
  (forall separation left_radius right_radius,
      let o2 := setWheelParams o1 separation left_radius right_radius in
      let left_dist :=
        left_pos * left_radius - left_pos * left_wheel_radius_ o in
      let right_dist :=
        right_pos * right_radius - right_pos * right_wheel_radius_ o in
      linear_increment o2 left_pos right_pos
      = (right_dist + left_dist) * Fin 0.5
      /\ angular_increment o2 left_pos right_pos
         = (right_dist - left_dist) / separation
      /\ (forall left_vel' right_vel' time',
             heading_ (snd (update o2 left_pos right_pos
                              left_vel' right_vel' time'))
             = heading_ o1 + (right_dist - left_dist) / separation))
  /\ (forall (separation : R) left_vel' right_vel' time',
         separation <> 0%R ->
         finite (left_pos * left_wheel_radius_ o) ->
         finite (right_pos * right_wheel_radius_ o) ->
         finite (heading_ o1) ->
         let o2 :=
           setWheelParams o1 (Fin separation)
             (left_wheel_radius_ o) (right_wheel_radius_ o) in
         pose (snd (update o2 left_pos right_pos left_vel' right_vel' time'))
         = pose o1).
Proof.
  intros o1.
  assert (Hmem : encoder_memory o1
                 = (left_pos * left_wheel_radius_ o,
                    right_pos * right_wheel_radius_ o))
    by apply update_encoder_memory.
  unfold encoder_memory in Hmem. injection Hmem as Hl Hr.
  split.
  - intros separation left_radius right_radius o2 left_dist right_dist.
    assert (Hlin : linear_increment o2 left_pos right_pos
                   = (right_dist + left_dist) * Fin 0.5).
    { unfold linear_increment, o2, setWheelParams. odo_cbn.
      now rewrite Hl, Hr. }
    assert (Hang : angular_increment o2 left_pos right_pos
                   = (right_dist - left_dist) / separation).
    { unfold angular_increment, o2, setWheelParams. odo_cbn.
      now rewrite Hl, Hr. }
    split_all; [exact Hlin | exact Hang |].
    intros left_vel' right_vel' time'. rewrite update_heading, Hang.
    reflexivity.
  - intros separation left_vel' right_vel' time' Hnz Hfl Hfr Hh o2.
    destruct (held_increments o2 left_pos right_pos separation)
      as [Hlin Hang]; try assumption; try reflexivity.
    rewrite update_pose, Hlin, Hang.
    now rewrite (integrate_fun_zero o2 Hh).
Qed.

Lemma radius_change_is_integrated_witness :
  let o := setWheelParams (Odometry_ctor 10) (Fin 1) (Fin 1) (Fin 1) in
  let o1 := snd (update o (Fin 3) (Fin 3) (Fin 0) (Fin 0) 1) in
  (2%R <> 0%R
   /\ finite (Fin 3 * left_wheel_radius_ o)
   /\ finite (Fin 3 * right_wheel_radius_ o)
   /\ finite (heading_ o1))
  /\ pose (snd (update (setWheelParams o1 (Fin 2) (left_wheel_radius_ o)
                          (right_wheel_radius_ o))
                  (Fin 3) (Fin 3) (Fin 5) (Fin 6) 2))
     = pose o1.
Proof.
  intros o o1.
  assert (Hnz : 2%R <> 0%R) by lra.
  assert (Hfin : finite (Fin 3 * Fin 1)) by exact I.
  assert (Hhead : finite (heading_ o1)).
  { unfold o1. rewrite update_heading.
    unfold angular_increment, o, setWheelParams, Odometry_ctor.
    odo_cbn. deval. exact I. }
  split; [split_all; assumption |].
  exact (proj2 (radius_change_is_integrated o (Fin 3) (Fin 3) (Fin 0)
                  (Fin 0) 1%R)
           2%R (Fin 5) (Fin 6) 2%R Hnz Hfin Hfin Hhead).
Defined.

(** ** [init] *)

(** X12.  [init] stores the time and replaces both accumulators by fresh ones
    of the stored window size, and nothing else: pose, velocity estimate,
    wheel parameters and encoder memory survive it, so the next encoder
    update integrates the same motion as it would have without the [init],
    and a second [init] overrides the first. *)
Theorem init_resets_filters_only (o : Odometry) (time : Time) :
  let o' := init o time in
  (timestamp_ o' = time
   /\ linear_accum_ o' = make (velocity_rolling_window_size_ o)
   /\ angular_accum_ o' = make (velocity_rolling_window_size_ o)
   /\ pose o' = pose o
   /\ velocity o' = velocity o
   /\ wheel_params o' = wheel_params o
   /\ encoder_memory o' = encoder_memory o
   /\ velocity_rolling_window_size_ o' = velocity_rolling_window_size_ o
   /\ integrate_fun_ o' = integrate_fun_ o)
  /\ (forall time', init o' time' = init o time')
  /\ (forall left_pos right_pos time',
         pose (snd (updateWithVelEst o' left_pos right_pos time'))
         = pose (snd (updateWithVelEst o left_pos right_pos time'))
         /\ encoder_memory (snd (updateWithVelEst o' left_pos right_pos time'))
            = encoder_memory
                (snd (updateWithVelEst o left_pos right_pos time'))).
Proof.
  intros o'. split_all; try reflexivity.
  intros left_pos right_pos time'. split.
  - rewrite !updateWithVelEst_pose.
    change (linear_increment o' left_pos right_pos)
      with (linear_increment o left_pos right_pos).
    change (angular_increment o' left_pos right_pos)
      with (angular_increment o left_pos right_pos).
    apply integrate_fun_pose_ext; reflexivity.
  - now rewrite !updateWithVelEst_encoder_memory.
Qed.

(** ** The timestamp under encoder updates *)

Lemma call_encoder_update_timestamp (o : Odometry) (c : Call) :
  is_encoder_update c = true -> (timestamp_ o <= timestamp_ (call o c))%R.
Proof.
  destruct c; cbn [is_encoder_update call]; try discriminate; intros _.
  - rewrite updateWithVelEst_timestamp. destruct (Rlt_dec _ _); lra.
  - rewrite update_timestamp. lra.
Qed.

(** X13.  Encoder updates never set the clock back.  An [updateWithVelEst]
    call whose time is not later than the stored timestamp is rejected
    ([false]) and leaves timestamp and velocity estimate alone, and over any
    sequence of [updateWithVelEst] and [update] calls, whatever their time
    arguments, the stored timestamp does not decrease. *)
Theorem encoder_updates_never_rewind (o : Odometry) (cs : list Call) :
  (forall left_pos right_pos time,
      (time <= timestamp_ o)%R ->
      let res := updateWithVelEst o left_pos right_pos time in
      fst res = false
      /\ timestamp_ (snd res) = timestamp_ o
      /\ velocity (snd res) = velocity o)
  /\ (forallb is_encoder_update cs = true ->
      (timestamp_ o <= timestamp_ (calls o cs))%R).
Proof.
  split.
  - intros left_pos right_pos time Hlate res.
    assert (Hdt : (time - timestamp_ o < 1e-4)%R) by lra.
    destruct (updateWithVelEst_skip o left_pos right_pos time Hdt)
      as (Hfalse & Hvel & Hstamp & _).
    split_all; assumption.
  - revert o. induction cs as [| c cs IH]; intros o Hall.
    + simpl. lra.
    + cbn [forallb] in Hall. apply andb_prop in Hall as [Hc Hcs].
      change (calls o (c :: cs)) with (calls (call o c) cs).
      pose proof (call_encoder_update_timestamp o c Hc) as Hstep.
      pose proof (IH (call o c) Hcs) as Hrest. lra.
Qed.

Lemma encoder_updates_never_rewind_witness :
  let o :=
    init (setWheelParams (Odometry_ctor 10) (Fin 1) (Fin 1) (Fin 1)) 5 in
  let cs := [CallUpdateWithVelEst (Fin 1) (Fin 1) 9;
             CallUpdate (Fin 2) (Fin 2) (Fin 0) (Fin 0) 1;
             CallUpdateWithVelEst (Fin 3) (Fin 3) 4] in
  ((3 <= timestamp_ o)%R /\ forallb is_encoder_update cs = true)
  /\ fst (updateWithVelEst o (Fin 1) (Fin 1) 3) = false
  /\ (timestamp_ o <= timestamp_ (calls o cs))%R.
Proof.
  intros o cs.
  assert (Hlate : (3 <= timestamp_ o)%R) by (simpl; lra).
  assert (Hall : forallb is_encoder_update cs = true) by reflexivity.
  destruct (encoder_updates_never_rewind o cs) as [Hreject Hmono].
  split; [exact (conj Hlate Hall) | split].
  - exact (proj1 (Hreject (Fin 1) (Fin 1) 3%R Hlate)).
  - exact (Hmono Hall).
Defined.

(** ** Invariants over call sequences *)

Lemma call_keeps_binding (o : Odometry) (c : Call) :
  integrate_fun_ (call o c) = integrate_fun_ o.
Proof.
  destruct c; cbn [call].
  - reflexivity.
  - apply updateWithVelEst_integrate_fun_.
  - apply update_integrate_fun_.
  - unfold updateOpenLoop. cbv zeta. odo_simpl. reflexivity.
  - reflexivity.
  - reflexivity.
Qed.

Lemma call_config_frame (o : Odometry) (c : Call) :
  is_update c = false ->
  pose (call o c) = pose o
  /\ velocity (call o c) = velocity o
  /\ encoder_memory (call o c) = encoder_memory o.
Proof.
  destruct c; cbn [is_update call]; try discriminate; intros _;
    split_all; reflexivity.
Qed.

Lemma call_wheel_params (o : Odometry) (c : Call) :
  is_setWheelParams c = false ->
  wheel_params (call o c) = wheel_params o.
Proof.
  destruct c; cbn [is_setWheelParams call]; try discriminate; intros _.
  - reflexivity.
  - apply updateWithVelEst_wheel_params.
  - apply update_wheel_params.
  - unfold updateOpenLoop. cbv zeta. odo_simpl. reflexivity.
  - reflexivity.
Qed.

(** X14.  Only the three updates move the estimate, only [setWheelParams]
    changes the wheel parameters, and nothing rebinds the integrator: a
    sequence of [init], [setWheelParams] and [setVelocityRollingWindowSize]
    calls leaves pose, velocity estimate and encoder memory as they were; a
    sequence of calls without [setWheelParams] leaves the wheel parameters as
    they were; and after any sequence of calls the integrator is the one
    bound before, which on a constructed estimator is [integrateExact]. *)
Theorem calls_frame (o : Odometry) (cs : list Call) :
  (forallb (fun c => negb (is_update c)) cs = true ->
   pose (calls o cs) = pose o
   /\ velocity (calls o cs) = velocity o
   /\ encoder_memory (calls o cs) = encoder_memory o)
  /\ (forallb (fun c => negb (is_setWheelParams c)) cs = true ->
      wheel_params (calls o cs) = wheel_params o)
  /\ integrate_fun_ (calls o cs) = integrate_fun_ o
  /\ (forall n, integrate_fun_ (calls (Odometry_ctor n) cs) = IntegrateExact).
Proof.
  assert (Hbind : forall s, integrate_fun_ (calls s cs) = integrate_fun_ s).
  { induction cs as [| c cs IH]; intros s; [reflexivity |].
    change (calls s (c :: cs)) with (calls (call s c) cs).
    rewrite IH. apply call_keeps_binding. }
  split; [| split; [| split; [apply Hbind | intros n; apply Hbind]]];
    clear Hbind; revert o; induction cs as [| c cs IH]; intros o Hall;
    try (split_all; reflexivity); try reflexivity;
    cbn [forallb] in Hall; apply andb_prop in Hall as [Hc Hcs];
    apply Bool.negb_true_iff in Hc;
    change (calls o (c :: cs)) with (calls (call o c) cs).
  - destruct (IH (call o c) Hcs) as (Hp & Hv & Hm).
    destruct (call_config_frame o c Hc) as (Hp' & Hv' & Hm').
    rewrite Hp, Hv, Hm. split_all; assumption.
  - rewrite (IH (call o c) Hcs). now apply call_wheel_params.
Qed.

Lemma calls_frame_witness :
  let o :=
    snd (update (setWheelParams (Odometry_ctor 10) (Fin 1) (Fin 1) (Fin 1))
           (Fin 1) (Fin 3) (Fin 2) (Fin 4) 0) in
  let config := [CallInit 5; CallSetWheelParams (Fin 2) (Fin 1) (Fin 1);
                 CallSetVelocityRollingWindowSize 3] in
  let moves := [CallUpdate (Fin 2) (Fin 4) (Fin 0) (Fin 0) 1; CallInit 2;
                CallUpdateOpenLoop (Fin 1) (Fin 0) 3] in
  (forallb (fun c => negb (is_update c)) config = true
   /\ forallb (fun c => negb (is_setWheelParams c)) moves = true)
  /\ pose (calls o config) = pose o
  /\ wheel_params (calls o moves) = wheel_params o.
Proof.
  intros o config moves.
  assert (Hconfig : forallb (fun c => negb (is_update c)) config = true)
    by reflexivity.
  assert (Hmoves : forallb (fun c => negb (is_setWheelParams c)) moves = true)
    by reflexivity.
  split; [exact (conj Hconfig Hmoves) | split].
  - exact (proj1 (proj1 (calls_frame o config) Hconfig)).
  - exact (proj1 (proj2 (calls_frame o moves)) Hmoves).
Defined.

(** ** The velocity estimate over a run of readings *)







(** X16.  What a rejected call costs.  After an [updateWithVelEst] call
    rejected for its short interval, the next accepted call measures [dt]
    from the timestamp before the rejected call, but its wheel distances
    from the reading of the rejected call: the sample it pushes is the
    increment since the rejected reading over the whole [dt].  The pose has
    the increments of both calls; the velocity sample has only the later
    one. *)
Theorem rejected_reading_missing_from_sample (o : Odometry)
  (left_pos right_pos left_pos' right_pos' : double) (time time' : Time) :
  (time - timestamp_ o < 1e-4)%R ->
  (time' - timestamp_ o >= 1e-4)%R ->
  let o1 := snd (updateWithVelEst o left_pos right_pos time) in
  let res := updateWithVelEst o1 left_pos' right_pos' time' in
  let dt := (time' - timestamp_ o)%R in
  let left_dist :=
    left_pos' * left_wheel_radius_ o - left_pos * left_wheel_radius_ o in
  let right_dist :=
    right_pos' * right_wheel_radius_ o - right_pos * right_wheel_radius_ o in
  fst res = true
  /\ linear_accum_ (snd res)
     = push (linear_accum_ o) ((right_dist + left_dist) * Fin 0.5 / Fin dt)
  /\ angular_accum_ (snd res)
     = push (angular_accum_ o)
         ((right_dist - left_dist) / wheel_separation_ o / Fin dt)
  /\ heading_ (snd res)
     = heading_ o + angular_increment o left_pos right_pos
       + (right_dist - left_dist) / wheel_separation_ o.
Proof.
  intros Hshort Hlong o1 res dt left_dist right_dist.
  destruct (updateWithVelEst_skip o left_pos right_pos time Hshort)
    as (_ & _ & Hstamp & Hl & Ha).
  fold o1 in Hstamp, Hl, Ha.
  assert (Hlong' : (time' - timestamp_ o1 >= 1e-4)%R)
    by (rewrite Hstamp; lra).
  destruct (updateWithVelEst_refresh o1 left_pos' right_pos' time' Hlong')
    as (Htrue & _ & Hl' & Ha' & _).
  fold res in Htrue, Hl', Ha'. cbv zeta in Hl', Ha'.
  destruct (increments_after_reading o left_pos right_pos
              left_pos' right_pos' time) as [Hlin Hang].
  fold o1 left_dist right_dist in Hlin, Hang.
  rewrite Hl', Ha', Hl, Ha, Hstamp, Hlin, Hang. fold dt.
  split_all; try reflexivity; try exact Htrue.
  unfold res. rewrite updateWithVelEst_heading, Hang.
  unfold o1. now rewrite updateWithVelEst_heading.
Qed.

Lemma rejected_reading_missing_from_sample_witness :
  let o := setWheelParams (Odometry_ctor 10) (Fin 1) (Fin 1) (Fin 1) in
  ((0 - timestamp_ o < 1e-4)%R /\ (1 - timestamp_ o >= 1e-4)%R)
  /\ linear_accum_
       (snd (updateWithVelEst (snd (updateWithVelEst o (Fin 1) (Fin 1) 0))
               (Fin 3) (Fin 3) 1))
     = push (linear_accum_ o)
         ((Fin 3 * right_wheel_radius_ o - Fin 1 * right_wheel_radius_ o
           + (Fin 3 * left_wheel_radius_ o - Fin 1 * left_wheel_radius_ o))
          * Fin 0.5 / Fin (1 - timestamp_ o)).
Proof.
  intros o.
  assert (Hshort : (0 - timestamp_ o < 1e-4)%R) by (simpl; lra).
  assert (Hlong : (1 - timestamp_ o >= 1e-4)%R) by (simpl; lra).
  split; [exact (conj Hshort Hlong) |].
  exact (proj1 (proj2 (rejected_reading_missing_from_sample o (Fin 1) (Fin 1)
                         (Fin 3) (Fin 3) 0%R 1%R Hshort Hlong))).
Defined.
